(** * Doubly-Stochastic Deep Gaussian Process: model of [dgp.py]

    A shallow embedding of [doubly_stochastic_dgp/dgp.py]: the layer stack
    builder ([DGP.__init__]), the propagation engine ([DGP_Base.propagate]),
    the bound assembly ([DGP_Base._build_likelihood]) and the predictive
    density ([DGP_Base.predict_density]).

    Numbers of [float_type] are kept abstract (class [Scalar]); arrays carry
    their shape the way numpy and TensorFlow arrays do, so that an array with
    no rows still has a column count. *)

From Stdlib Require Import List ZArith Lia Bool Arith PeanoNat.
From Stdlib Require String.
From Stdlib Require Import Floats.
From Stdlib Require Uint63.
From Stdlib Require Import Reals Lra.
Import ListNotations.

Set Implicit Arguments.

(** ** Results of fallible Python code *)

(** The exceptions [dgp.py] can end in are Python's [IndexError] (an index
    into an empty list) and numpy's [ValueError] (shapes not aligned).
    [ConfigurationError] is the descriptive error of a constructor that
    validates its arguments; no statement of [dgp.py] raises it. *)
Inductive exn : Type :=
| IndexError
| ValueError
| ConfigurationError (what : String.string).

Inductive result (A : Type) : Type :=
| Ok (a : A)
| Raise (e : exn).

Arguments Ok {A} a.
Arguments Raise {A} e.

Definition rbind {A B : Type} (r : result A) (k : A -> result B) : result B :=
  match r with
  | Ok a => k a
  | Raise e => Raise e
  end.

Notation "x <- c ;; k" := (rbind c (fun x => k))
  (at level 61, c at next level, right associativity).

(** ** Scalars of [float_type] *)

Class Scalar (T : Type) : Type := {
  s_zero : T;
  s_one : T;
  s_add : T -> T -> T;
  s_sub : T -> T -> T;
  s_mul : T -> T -> T;
  s_div : T -> T -> T;
  s_of_nat : nat -> T   (* tf.cast(n, float_type) *)
}.

#[export] Instance Z_scalar : Scalar Z := {
  s_zero := 0%Z;
  s_one := 1%Z;
  s_add := Z.add;
  s_sub := Z.sub;
  s_mul := Z.mul;
  s_div := Z.div;
  s_of_nat := Z.of_nat
}.

(** The real numbers: the arithmetic [float_type] approximates, without
    rounding or overflow. *)
#[export] Instance R_scalar : Scalar R := {
  s_zero := 0%R;
  s_one := 1%R;
  s_add := Rplus;
  s_sub := Rminus;
  s_mul := Rmult;
  s_div := Rdiv;
  s_of_nat := INR
}.

(** ** Arrays *)

Section Arrays.
Context {T : Type} `{Scalar T}.

(** A 2-D array of shape [(length (rows m), ncols m)]. *)
Record matrix : Type := Matrix {
  ncols : nat;
  rows : list (list T)
}.

Definition nrows (m : matrix) : nat := length (rows m).

(** Every stored row has the declared width. *)
Definition well_shaped (m : matrix) : Prop :=
  Forall (fun r => length r = ncols m) (rows m).

(** [m[i, j]] *)
Definition entry (m : matrix) (i j : nat) : T :=
  nth j (nth i (rows m) []) s_zero.

(** A 3-D tensor of shape [(length (samples t), dimN t, dimD t)]. *)
Record tensor3 : Type := Tensor3 {
  dimN : nat;
  dimD : nat;
  samples : list (list (list T))
}.

Definition dimS (t : tensor3) : nat := length (samples t).

(** [t[s, n, d]] *)
Definition entry3 (t : tensor3) (s n d : nat) : T :=
  nth d (nth n (nth s (samples t) []) []) s_zero.

(** The [s]-th slice along the sample axis, as a 2-D array. *)
Definition slice (t : tensor3) (s : nat) : matrix :=
  Matrix (dimD t) (nth s (samples t) []).

Definition sum_list (l : list T) : T := fold_left s_add l s_zero.

(** [np.eye(n)] *)
Definition eye (n : nat) : matrix :=
  Matrix n (map (fun i => map (fun j => if i =? j then s_one else s_zero)
                              (seq 0 n)) (seq 0 n)).

(** [np.zeros((r, c))] *)
Definition zeros (r c : nat) : matrix :=
  Matrix c (repeat (repeat s_zero c) r).

(** [np.concatenate([a, b], 1)] *)
Definition concatenate1 (a b : matrix) : result matrix :=
  if nrows a =? nrows b
  then Ok (Matrix (ncols a + ncols b)
                  (map (fun p => fst p ++ snd p) (combine (rows a) (rows b))))
  else Raise ValueError.

(** [m[:k, :]] *)
Definition take_rows (k : nat) (m : matrix) : matrix :=
  Matrix (ncols m) (firstn k (rows m)).

(** [m.T] *)
Definition transpose (m : matrix) : matrix :=
  Matrix (nrows m)
         (map (fun j => map (fun i => entry m i j) (seq 0 (nrows m)))
              (seq 0 (ncols m))).

(** [a.dot(b)] for 2-D arrays *)
Definition dot (a b : matrix) : result matrix :=
  if ncols a =? nrows b
  then Ok (Matrix (ncols b)
             (map (fun i =>
                map (fun j =>
                  sum_list (map (fun k => s_mul (entry a i k) (entry b k j))
                                (seq 0 (ncols a))))
                    (seq 0 (ncols b)))
                  (seq 0 (nrows a))))
  else Raise ValueError.

(** [tf.tile(tf.expand_dims(X, 0), [S, 1, 1])] *)
Definition tile_samples (X : matrix) (S : nat) : tensor3 :=
  Tensor3 (nrows X) (ncols X) (repeat (rows X) S).

(** [tf.reduce_mean(t, 0)]: sum over the leading axis divided by its
    length. *)
Definition reduce_mean0 (t : tensor3) : matrix :=
  Matrix (dimD t)
    (map (fun n =>
       map (fun d =>
         s_div (sum_list (map (fun s => entry3 t s n d) (seq 0 (dimS t))))
               (s_of_nat (dimS t)))
           (seq 0 (dimD t)))
         (seq 0 (dimN t))).

(** [tf.reduce_sum(m)] over all entries, row-major *)
Definition reduce_sum (m : matrix) : T :=
  sum_list (concat (map (fun i => map (fun j => entry m i j) (seq 0 (ncols m)))
                        (seq 0 (nrows m)))).

(** Euclidean inner product of columns [j] and [k]. *)
Definition col_dot (m : matrix) (j k : nat) : T :=
  sum_list (map (fun i => s_mul (entry m i j) (entry m i k)) (seq 0 (nrows m))).

(** Euclidean inner product of rows [j] and [k]. *)
Definition row_dot (m : matrix) (j k : nat) : T :=
  sum_list (map (fun i => s_mul (entry m j i) (entry m k i)) (seq 0 (ncols m))).

Definition delta (j k : nat) : T := if j =? k then s_one else s_zero.

(** The identity of size [n] with [k] zero columns to its right, row by
    row. *)
Definition padded_identity (n k : nat) : matrix :=
  Matrix (n + k)
         (map (fun i => map (fun j => delta i j) (seq 0 n) ++ repeat s_zero k)
              (seq 0 n)).

Definition orthonormal_rows (m : matrix) : Prop :=
  forall j k, j < nrows m -> k < nrows m -> row_dot m j k = delta j k.

Definition orthonormal_cols (m : matrix) : Prop :=
  forall j k, j < ncols m -> k < ncols m -> col_dot m j k = delta j k.
End Arrays.

Arguments matrix T : clear implicits.
Arguments tensor3 T : clear implicits.

(** ** Layer stack builder: [DGP.__init__] *)

Section Builder.
Context {T : Type} `{Scalar T}.

(** What the builder reads of a kernel is its [input_dim]; the rest is
    handed to the layer untouched. *)
Variable kernel_body : Type.

Record kernel : Type := Kernel {
  input_dim : nat;
  body : kernel_body
}.

(** gpflow mean functions; [Linear] carries its weight matrix and its
    trainable flag; [Custom] stands for any other caller-supplied one. *)
Variable custom_mf : Type.

Inductive mean_function : Type :=
| Identity
| Linear (W : matrix T) (trainable : bool)
| Zero
| Custom (f : custom_mf).

(** [mf.set_trainable(flag)] *)
Definition set_trainable (mf : mean_function) (flag : bool) : mean_function :=
  match mf with
  | Linear W _ => Linear W flag
  | other => other
  end.

(** The arguments [SVGP_Layer(kern, Z, num_outputs, mean_function)] is
    built from. *)
Record SVGP_Layer : Type := SVGP {
  kern : kernel;
  layer_Z : matrix T;
  num_outputs : nat;
  layer_mf : mean_function
}.

(** Third component of [np.linalg.svd(X, full_matrices=False)]: the matrix
    whose rows are the right-singular vectors, largest singular value
    first. *)
Variable svd_Vh : matrix T -> matrix T.

(** [a or b] on a count: [None] and [0] are falsy. *)
Definition or_default (a : option nat) (b : nat) : nat :=
  match a with
  | Some (S n) => S n
  | _ => b
  end.

(** The weight matrix of a dimension-changing transition. *)
Definition transition_W (X_running : matrix T) (dim_in dim_out : nat)
  : result (matrix T) :=
  if dim_out <? dim_in
  then (* stepping down, use the pca projection *)
    let V := svd_Vh X_running in
    Ok (transpose (take_rows dim_out V))
  else (* pad with zeros *)
    let zs := zeros dim_in (dim_out - dim_in) in
    concatenate1 (eye dim_in) zs.

Definition builder_state : Type := (matrix T * matrix T * list SVGP_Layer)%type.

(** Body of the loop over [zip(kernels[:-1], kernels[1:])]. *)
Definition inner_layer (st : builder_state) (kk : kernel * kernel)
  : result builder_state :=
  let '(X_running, Z_running, layers) := st in
  let '(kern_in, kern_out) := kk in
  let dim_in := input_dim kern_in in
  let dim_out := input_dim kern_out in
  if dim_in =? dim_out
  then
    let mf := Identity in
    Ok (X_running, Z_running,
        layers ++ [SVGP kern_in Z_running dim_out mf])
  else
    W <- transition_W X_running dim_in dim_out ;;
    let mf := set_trainable (Linear W true) false in
    let layers' := layers ++ [SVGP kern_in Z_running dim_out mf] in
    Z_running' <- dot Z_running W ;;
    X_running' <- dot X_running W ;;
    Ok (X_running', Z_running', layers').

Fixpoint inner_layers (st : builder_state) (pairs : list (kernel * kernel))
  : result builder_state :=
  match pairs with
  | [] => Ok st
  | kk :: rest => st' <- inner_layer st kk ;; inner_layers st' rest
  end.

(** [kernels[-1]] *)
Definition last_kernel (kernels : list kernel) : result kernel :=
  match rev kernels with
  | [] => Raise IndexError
  | k :: _ => Ok k
  end.

(** The layer list [DGP.__init__] hands to [DGP_Base.__init__]. *)
Definition DGP_layers (X Y Z : matrix T) (kernels : list kernel)
           (num_outputs_arg : option nat) (mean_function_arg : mean_function)
  : result (list SVGP_Layer) :=
  let num_outputs := or_default num_outputs_arg (ncols Y) in
  st <- inner_layers (X, Z, []) (combine (removelast kernels) (tl kernels)) ;;
  let '(_, Z_running, layers) := st in
  k <- last_kernel kernels ;;
  Ok (layers ++ [SVGP k Z_running num_outputs mean_function_arg]).
End Builder.

Arguments Identity {T custom_mf}.
Arguments Zero {T custom_mf}.
Arguments Linear {T custom_mf} W trainable.
Arguments Custom {T custom_mf} f.

(** ** Capabilities the model consumes *)

(** A layer as the propagation engine sees it.  [z = None] makes the layer
    draw its own noise from the random source [Rng]; the variance tensor it
    returns ([S, N, D] or, with [full_cov], [S, N, N, D]) is only passed on,
    so its type [FVar] stays abstract. *)
Class LayerOps (T Layer FVar Rng : Type) : Type := {
  sample_from_conditional :
    Layer -> tensor3 T -> option (tensor3 T) -> bool -> Rng ->
    (tensor3 T * tensor3 T * FVar) * Rng;
  KL : Layer -> T
}.

(** The likelihood behind [BroadcastingLikelihood]. *)
Record Likelihood (T FVar : Type) : Type := {
  variational_expectations : tensor3 T -> FVar -> matrix T -> tensor3 T;
  predict_mean_and_var : tensor3 T -> FVar -> tensor3 T * FVar;
  lik_predict_density : tensor3 T -> FVar -> matrix T -> tensor3 T
}.

(** Row selection of gpflow's [Minibatch]: the rows of draw number [t], given
    the seed, the batch size and the row count of the held array. *)
Class MinibatchSampler : Type := {
  minibatch_rows : Z -> nat -> nat -> nat -> list nat
}.

(** Exponential, logarithm and maximum of [float_type], for
    [tf.reduce_logsumexp]. *)
Class ScalarLog (T : Type) : Type := {
  s_exp : T -> T;
  s_log : T -> T;
  s_max : T -> T -> T
}.

#[export] Instance R_scalar_log : ScalarLog R := {
  s_exp := exp;
  s_log := ln;
  s_max := Rmax
}.

(** ** [DGP_Base] *)

Section Base.
Context {T : Type} `{Scalar T}.
Context {Layer FVar Rng : Type} `{LayerOps T Layer FVar Rng}.
Context `{MinibatchSampler}.

(** [DataHolder(d)] or [Minibatch(d, batch_size, seed)] *)
Inductive holder : Type :=
| DataHolder (d : matrix T)
| Minibatch (d : matrix T) (batch_size : nat) (seed : Z).

(** [d[idx, :]] *)
Definition gather (d : matrix T) (idx : list nat) : matrix T :=
  Matrix (ncols d) (map (fun i => nth i (rows d) []) idx).

(** The array a holder evaluates to at draw number [t]. *)
Definition read (h : holder) (t : nat) : matrix T :=
  match h with
  | DataHolder d => d
  | Minibatch d b seed => gather d (minibatch_rows seed b (nrows d) t)
  end.

Record DGP_Base : Type := Model {
  num_samples : nat;
  num_data : nat;
  model_X : holder;
  model_Y : holder;
  likelihood : Likelihood T FVar;
  layers : list Layer
}.

(** [DGP_Base.__init__] *)
Definition DGP_Base_init (X Y : matrix T) (lik : Likelihood T FVar)
           (ls : list Layer) (minibatch_size : option nat)
           (num_samples_arg : nat) (num_data_arg : option nat) : DGP_Base :=
  let nd := or_default num_data_arg (nrows X) in
  match minibatch_size with
  | Some (S b) =>
      Model num_samples_arg nd (Minibatch X (S b) 0%Z) (Minibatch Y (S b) 0%Z)
            lik ls
  | _ =>
      Model num_samples_arg nd (DataHolder X) (DataHolder Y) lik ls
  end.

Definition outputs : Type :=
  (list (tensor3 T) * list (tensor3 T) * list FVar)%type.

(** [zs or [None, ] * n] *)
Definition zs_or_default (zs : option (list (option (tensor3 T)))) (n : nat)
  : list (option (tensor3 T)) :=
  match zs with
  | None | Some [] => repeat None n
  | Some l => l
  end.

(** The loop of [propagate] over [zip(self.layers, zs)]. *)
Fixpoint propagate_loop (lz : list (Layer * option (tensor3 T)))
         (full_cov : bool) (F : tensor3 T) (acc : outputs) (g : Rng)
  : outputs * Rng :=
  match lz with
  | [] => (acc, g)
  | (layer, z) :: rest =>
      let '(Fs, Fmeans, Fvars) := acc in
      let '((F', Fmean, Fvar), g') :=
        sample_from_conditional layer F z full_cov g in
      propagate_loop rest full_cov F'
                     (Fs ++ [F'], Fmeans ++ [Fmean], Fvars ++ [Fvar]) g'
  end.

Definition propagate (m : DGP_Base) (X : matrix T) (full_cov : bool)
           (S : nat) (zs : option (list (option (tensor3 T)))) (g : Rng)
  : outputs * Rng :=
  let sX := tile_samples X S in
  let zs' := zs_or_default zs (length (layers m)) in
  propagate_loop (combine (layers m) zs') full_cov sX ([], [], []) g.

(** [l[-1]] *)
Definition last_of {A : Type} (l : list A) : result A :=
  match rev l with
  | [] => Raise IndexError
  | x :: _ => Ok x
  end.

Definition _build_predict (m : DGP_Base) (X : matrix T) (full_cov : bool)
           (S : nat) (g : Rng) : result ((tensor3 T * FVar) * Rng) :=
  let '((Fs, Fmeans, Fvars), g') := propagate m X full_cov S None g in
  Fmean <- last_of Fmeans ;;
  Fvar <- last_of Fvars ;;
  Ok ((Fmean, Fvar), g').

Definition E_log_p_Y (m : DGP_Base) (X Y : matrix T) (g : Rng)
  : result (matrix T * Rng) :=
  r <- _build_predict m X false (num_samples m) g ;;
  let '((Fmean, Fvar), g') := r in
  let var_exp := variational_expectations (likelihood m) Fmean Fvar Y in
  Ok (reduce_mean0 var_exp, g').

(** The objective at draw number [t] of the data holders. *)
Definition _build_likelihood (m : DGP_Base) (t : nat) (g : Rng)
  : result (T * Rng) :=
  let X := read (model_X m) t in
  let Y := read (model_Y m) t in
  r <- E_log_p_Y m X Y g ;;
  let '(e, g') := r in
  let L := reduce_sum e in
  let kl := sum_list (map KL (layers m)) in
  let scale := s_of_nat (num_data m) in
  let scale := s_div scale (s_of_nat (nrows X)) in
  Ok (s_sub (s_mul L scale) kl, g').

Context `{ScalarLog T}.

(** [t - c] with the scalar [c] broadcast *)
Definition sub_scalar (t : tensor3 T) (c : T) : tensor3 T :=
  Tensor3 (dimN t) (dimD t)
          (map (fun s =>
             map (fun n =>
               map (fun d => s_sub (entry3 t s n d) c) (seq 0 (dimD t)))
                 (seq 0 (dimN t)))
               (seq 0 (dimS t))).

Definition max_list (l : list T) : T :=
  match l with
  | [] => s_zero
  | x :: r => fold_left s_max r x
  end.

(** [tf.reduce_logsumexp(t, axis=0)]: the maximum over the axis is taken
    out before exponentiating and added back after the logarithm. *)
Definition reduce_logsumexp0 (t : tensor3 T) : matrix T :=
  Matrix (dimD t)
    (map (fun n =>
       map (fun d =>
         let xs := map (fun s => entry3 t s n d) (seq 0 (dimS t)) in
         let my_max := max_list xs in
         s_add (s_log (sum_list (map (fun x => s_exp (s_sub x my_max)) xs)))
               my_max)
           (seq 0 (dimD t)))
         (seq 0 (dimN t))).

Definition predict_density (m : DGP_Base) (Xnew Ynew : matrix T)
           (num_samples_arg : nat) (g : Rng) : result (matrix T * Rng) :=
  r <- _build_predict m Xnew false num_samples_arg g ;;
  let '((Fmean, Fvar), g') := r in
  let l := lik_predict_density (likelihood m) Fmean Fvar Ynew in
  let log_num_samples := s_log (s_of_nat num_samples_arg) in
  Ok (reduce_logsumexp0 (sub_scalar l log_num_samples), g').
End Base.

(** ** Specification of the forward pass *)

Section ForwardSpec.
Context {T : Type} `{Scalar T}.
Context {Layer FVar Rng : Type} `{LayerOps T Layer FVar Rng}.

(** [fed full_cov lz F g Fs Fmeans Fvars g']: starting from the tensor [F]
    and the random source [g], each layer of [lz] in turn is given the
    sample tensor of the layer before it (the first one is given [F]) and
    its own [z]; [Fs], [Fmeans], [Fvars] collect what the layers return, in
    order, and [g'] is the random source left at the end. *)
Inductive fed (full_cov : bool)
  : list (Layer * option (tensor3 T)) -> tensor3 T -> Rng ->
    list (tensor3 T) -> list (tensor3 T) -> list FVar -> Rng -> Prop :=
| fed_nil : forall F g, fed full_cov [] F g [] [] [] g
| fed_cons : forall layer z rest F g F' Fmean Fvar g' Fs Fmeans Fvars g'',
    sample_from_conditional layer F z full_cov g = ((F', Fmean, Fvar), g') ->
    fed full_cov rest F' g' Fs Fmeans Fvars g'' ->
    fed full_cov ((layer, z) :: rest) F g
        (F' :: Fs) (Fmean :: Fmeans) (Fvar :: Fvars) g''.

(** Every layer is called with [z = None]. *)
Definition no_noise (ls : list Layer) : list (Layer * option (tensor3 T)) :=
  map (fun layer => (layer, None)) ls.

(** What the engine relies on from a layer: the sample tensor it returns
    has as many samples as the tensor it was given. *)
Definition keeps_sample_axis (layer : Layer) : Prop :=
  forall F z full_cov g,
    dimS (fst (fst (fst (sample_from_conditional layer F z full_cov g))))
    = dimS F.

(** A layer that is handed its noise [z] does not consult the random
    source: what it returns is the same whatever the source is. *)
Definition uses_given_noise (layer : Layer) : Prop :=
  forall F z full_cov g1 g2,
    fst (sample_from_conditional layer F (Some z) full_cov g1)
    = fst (sample_from_conditional layer F (Some z) full_cov g2).
End ForwardSpec.

(** ** Specification of the objective *)

Section ObjectiveSpec.
Context {T : Type} `{Scalar T}.
Context {Layer FVar Rng : Type} `{LayerOps T Layer FVar Rng}.
Context `{MinibatchSampler}.

(** Average over the sample axis of the per-point expectation at data point
    [n] and output dimension [d]. *)
Definition sample_average (var_exp : tensor3 T) (n d : nat) : T :=
  s_div (sum_list (map (fun s => entry3 var_exp s n d) (seq 0 (dimS var_exp))))
        (s_of_nat (dimS var_exp)).

(** The batch estimate [L]: the sample averages, summed over data points and
    output dimensions. *)
Definition L_spec (var_exp : tensor3 T) : T :=
  sum_list (flat_map (fun n => map (fun d => sample_average var_exp n d)
                                   (seq 0 (dimD var_exp)))
                     (seq 0 (dimN var_exp))).

(** Sum of every layer's [KL()]. *)
Definition KL_spec (m : @DGP_Base T Layer FVar) : T :=
  sum_list (map (KL (Layer:=Layer)) (layers m)).

(** [num_data] over the row count of the batch. *)
Definition scale_spec (m : @DGP_Base T Layer FVar) (X_batch : matrix T) : T :=
  s_div (s_of_nat (num_data m)) (s_of_nat (nrows X_batch)).

(** Arithmetic of [float_type] the unit scale rests on: a non-zero number
    divided by itself is one, and a positive count casts to a non-zero
    number. *)
Definition division_by_self : Prop :=
  (forall x : T, x <> s_zero -> s_div x x = s_one)
  /\ (forall n : nat, 0 < n -> s_of_nat n <> (s_zero : T)).
End ObjectiveSpec.

(** ** Prediction entry points of [DGP_Base]

    The bodies of the [@autoflow] methods, for a model that has been built;
    the decorator itself (compilation of the model, feeding of the
    arguments) is not part of these definitions. *)

Section Prediction.
Context {T : Type} `{Scalar T}.
Context {Layer FVar Rng : Type} `{LayerOps T Layer FVar Rng}.
Context `{MinibatchSampler}.

Definition predict_f (m : DGP_Base) (Xnew : matrix T) (num_samples_arg : nat)
           (g : Rng) : result ((tensor3 T * FVar) * Rng) :=
  _build_predict m Xnew false num_samples_arg g.

Definition predict_f_full_cov (m : DGP_Base) (Xnew : matrix T)
           (num_samples_arg : nat) (g : Rng)
  : result ((tensor3 T * FVar) * Rng) :=
  _build_predict m Xnew true num_samples_arg g.

Definition predict_all_layers (m : DGP_Base) (Xnew : matrix T)
           (num_samples_arg : nat) (g : Rng) : outputs * Rng :=
  propagate m Xnew false num_samples_arg None g.

Definition predict_all_layers_full_cov (m : DGP_Base) (Xnew : matrix T)
           (num_samples_arg : nat) (g : Rng) : outputs * Rng :=
  propagate m Xnew true num_samples_arg None g.

Definition predict_y (m : DGP_Base) (Xnew : matrix T) (num_samples_arg : nat)
           (g : Rng) : result ((tensor3 T * FVar) * Rng) :=
  r <- _build_predict m Xnew false num_samples_arg g ;;
  let '((Fmean, Fvar), g') := r in
  Ok (predict_mean_and_var (likelihood m) Fmean Fvar, g').
End Prediction.

(** ** [DGP.__init__], whole *)

Section Constructor.
Context {T : Type} `{Scalar T}.
Variables kernel_body custom_mf FVar : Type.
Variable svd_Vh : matrix T -> matrix T.

(** The layers are built from the whole of [X], then [DGP_Base.__init__]
    takes over with the keyword arguments. *)
Definition DGP_init (X Y Z : matrix T) (kernels : list (kernel kernel_body))
           (lik : Likelihood T FVar)
           (num_outputs_arg : option nat)
           (mean_function_arg : mean_function custom_mf)
           (minibatch_size : option nat) (num_samples_arg : nat)
           (num_data_arg : option nat)
  : result (@DGP_Base T (SVGP_Layer kernel_body custom_mf) FVar) :=
  ls <- DGP_layers svd_Vh X Y Z kernels num_outputs_arg mean_function_arg ;;
  Ok (DGP_Base_init X Y lik ls minibatch_size num_samples_arg num_data_arg).

(** Shape of what [np.linalg.svd(M, full_matrices=False)] returns as [Vh]:
    as many columns as [M], and no fewer rows than the smaller side of
    [M]. *)
Definition svd_shape : Prop :=
  forall M, ncols (svd_Vh M) = ncols M
            /\ Nat.min (nrows M) (ncols M) <= nrows (svd_Vh M).

(** A mean function the builder itself attaches between two layers. *)
Definition fixed_mean_function (mf : mean_function (T:=T) custom_mf) : Prop :=
  mf = Identity \/ exists W, mf = Linear W false.

(** Wherever the input dimension drops from one kernel to the next, the new
    dimension is at most [N]. *)
Fixpoint enough_rows (N : nat) (kernels : list (kernel kernel_body)) : Prop :=
  match kernels with
  | k1 :: ((k2 :: _) as rest) =>
      (input_dim k2 < input_dim k1 -> input_dim k2 <= N)
      /\ enough_rows N rest
  | _ => True
  end.

(** The input dimensions never decrease along the kernel list. *)
Fixpoint never_steps_down (kernels : list (kernel kernel_body)) : Prop :=
  match kernels with
  | k1 :: ((k2 :: _) as rest) =>
      input_dim k1 <= input_dim k2 /\ never_steps_down rest
  | _ => True
  end.
End Constructor.

(** Arithmetic of [float_type] that zero-padding rests on: adding zero and
    multiplying by one change nothing, multiplying by zero gives zero. *)
Definition zero_one_laws (T : Type) `{Scalar T} : Prop :=
  (forall x : T, s_add x s_zero = x)
  /\ (forall x : T, s_add s_zero x = x)
  /\ (forall x : T, s_mul x s_one = x)
  /\ (forall x : T, s_mul x s_zero = s_zero).

Arguments zero_one_laws T {_}.

(** ** Noise drawn by the layers *)

(** What a layer draws from the random source when it is given no [z]: the
    noise and the source after the draw. *)
Class NoiseSource (T Layer Rng : Type) : Type := {
  draw_noise : Layer -> tensor3 T -> bool -> Rng -> tensor3 T * Rng
}.

Section NoiseSpec.
Context {T : Type} `{Scalar T}.
Context {Layer FVar Rng : Type} `{LayerOps T Layer FVar Rng}.
Context `{NoiseSource T Layer Rng}.

(** A layer that is given no [z] draws one, and then does what it does when
    handed that [z]. *)
Definition draws_then_uses (layer : Layer) : Prop :=
  forall F full_cov g,
    sample_from_conditional layer F None full_cov g
    = (fst (sample_from_conditional
              layer F (Some (fst (draw_noise layer F full_cov g))) full_cov
              (snd (draw_noise layer F full_cov g))),
       snd (draw_noise layer F full_cov g)).

(** The noise the layers draw, one after the other, in a pass that starts
    from the tensor [F] and the random source [g]. *)
Fixpoint drawn_noise (ls : list Layer) (full_cov : bool) (F : tensor3 T)
         (g : Rng) : list (tensor3 T) :=
  match ls with
  | [] => []
  | layer :: rest =>
      let '(z, g1) := draw_noise layer F full_cov g in
      let '((F', _, _), _) :=
        sample_from_conditional layer F (Some z) full_cov g1 in
      z :: drawn_noise rest full_cov F' g1
  end.
End NoiseSpec.

(** ** Log-sum-exp of equal samples *)

Section LogSumExpSpec.
Context {T : Type} `{Scalar T} `{ScalarLog T}.

(** Steps of [tf.reduce_logsumexp] on [S] copies of [w] that are exact in
    [float_type]: the maximum of [w] and [w] is [w], [w - w] is zero, the
    exponential of zero is one, and [S] ones add up to [S]. *)
Definition exact_steps (S : nat) (w : T) : Prop :=
  s_max w w = w
  /\ s_sub w w = s_zero
  /\ s_exp s_zero = s_one
  /\ sum_list (repeat s_one S) = s_of_nat S.
End LogSumExpSpec.

(** ** A small concrete instance

    Integer scalars, a random source that counts the draws made so far, and
    layers given by an offset [c]: with noise [z] a layer shifts every entry
    of its input by [c] plus the first entry of [z]; without, by [c] plus the
    number of draws so far, and it counts one more draw. *)

Module Toy.
Definition shift (c : Z) (t : tensor3 Z) : tensor3 Z :=
  Tensor3 (dimN t) (dimD t) (map (map (map (Z.add c))) (samples t)).

#[global] Instance toy_layer : LayerOps Z Z (tensor3 Z) nat := {
  sample_from_conditional layer F z full_cov g :=
    match z with
    | Some noise => ((shift (layer + entry3 noise 0 0 0) F, F, F), g)
    | None => ((shift (layer + Z.of_nat g) F, F, F), S g)
    end;
  KL layer := layer
}.

#[global] Instance toy_sampler : MinibatchSampler := {
  minibatch_rows seed b n t := map (fun i => (i + t * b) mod n) (seq 0 b)
}.

Definition toy_likelihood : Likelihood Z (tensor3 Z) := {|
  variational_expectations := fun Fmean Fvar Y => Fmean;
  predict_mean_and_var := fun Fmean Fvar => (Fmean, Fvar);
  lik_predict_density := fun Fmean Fvar Y => Fmean
|}.

Definition X2 : matrix Z := Matrix 2 [[1; 2]; [3; 4]]%Z.
Definition Y2 : matrix Z := Matrix 1 [[5]; [6]]%Z.

Definition model2 : DGP_Base :=
  DGP_Base_init X2 Y2 toy_likelihood [10; 20]%Z None 2 None.

(** Data with orthogonal columns of decreasing norm: the right-singular
    vectors are the coordinate axes, in order. *)
Definition X3 : matrix Z := Matrix 3 [[3; 0; 0]; [0; 2; 0]; [0; 0; 1]]%Z.
Definition Z3 : matrix Z := Matrix 3 [[1; 2; 3]; [4; 5; 6]]%Z.
Definition toy_svd (X : matrix Z) : matrix Z := eye (ncols X).

Definition k (d : nat) : kernel unit := Kernel d tt.

Definition X1 : matrix Z := Matrix 1 [[1]; [2]]%Z.
Definition Z1 : matrix Z := Matrix 1 [[7]]%Z.

(** The same over the reals: a layer that passes its input on, and a
    likelihood that returns the mean it is given. *)
#[global] Instance real_layer : LayerOps R unit (tensor3 R) nat := {
  sample_from_conditional layer F z full_cov g := ((F, F, F), g);
  KL layer := 0%R
}.

Definition real_likelihood : Likelihood R (tensor3 R) := {|
  variational_expectations := fun Fmean Fvar Y => Fmean;
  predict_mean_and_var := fun Fmean Fvar => (Fmean, Fvar);
  lik_predict_density := fun Fmean Fvar Y => Fmean
|}.

Definition XR : matrix R := Matrix 1 [[2%R]].

Definition modelR : DGP_Base :=
  DGP_Base_init XR XR real_likelihood [tt] None 1 None.

(** The noise a layer of [toy_layer] draws: the number of draws so far. *)
#[global] Instance toy_noise : NoiseSource Z Z nat := {
  draw_noise layer F full_cov g := (Tensor3 1 1 [[[Z.of_nat g]]], S g)
}.

(** Layers as [DGP_init] builds them, each shifting its input by its output
    dimension. *)
#[global] Instance built_layer
  : LayerOps Z (SVGP_Layer (T:=Z) unit unit) (tensor3 Z) nat := {
  sample_from_conditional layer F z full_cov g :=
    ((shift (Z.of_nat (num_outputs layer)) F, F, F), g);
  KL layer := Z.of_nat (num_outputs layer)
}.
End Toy.

(** ** IEEE binary64 as [float_type]

    Addition, subtraction, multiplication and division are those of the
    processor.  The logarithm and the exponential are given at the arguments
    the example below reaches, where every correctly rounding library agrees:
    [exp 0 = 1], [log 1 = 0] and [log 2 = 0x1.62e42fefa39efp-1]; elsewhere they
    are left undefined ([nan]). *)

Module Binary64.
Definition of_nat (n : nat) : float :=
  PrimFloat.of_uint63 (Uint63.of_Z (Z.of_nat n)).

Definition fmax (x y : float) : float :=
  if PrimFloat.ltb x y then y else x.

Definition exp_at (x : float) : float :=
  if PrimFloat.eqb x 0%float then 1%float else nan.

Definition log_at (x : float) : float :=
  if PrimFloat.eqb x 2%float then 0x1.62e42fefa39efp-1%float
  else if PrimFloat.eqb x 1%float then 0%float
  else nan.

#[global] Instance float_scalar : Scalar float := {
  s_zero := 0%float;
  s_one := 1%float;
  s_add := PrimFloat.add;
  s_sub := PrimFloat.sub;
  s_mul := PrimFloat.mul;
  s_div := PrimFloat.div;
  s_of_nat := of_nat
}.

#[global] Instance float_scalar_log : ScalarLog float := {
  s_exp := exp_at;
  s_log := log_at;
  s_max := fmax
}.

(** A layer that passes its input on, and a likelihood whose log-density is
    the mean it is given. *)
#[global] Instance float_layer : LayerOps float unit (tensor3 float) nat := {
  sample_from_conditional layer F z full_cov g := ((F, F, F), g);
  KL layer := 0%float
}.

Definition float_likelihood : Likelihood float (tensor3 float) := {|
  variational_expectations := fun Fmean Fvar Y => Fmean;
  predict_mean_and_var := fun Fmean Fvar => (Fmean, Fvar);
  lik_predict_density := fun Fmean Fvar Y => Fmean
|}.

(** One query point whose per-sample log-density is [0.1], the double
    [0x1.999999999999ap-4]. *)
Definition tenth : float := 0x1.999999999999ap-4%float.

Definition X_tenth : matrix float := Matrix 1 [[tenth]].

Definition model_tenth : DGP_Base :=
  DGP_Base_init X_tenth X_tenth float_likelihood [tt] None 1 None.
End Binary64.

(** * Properties *)

(** ** Propagation engine *)

Section PropagationFacts.
Context {T : Type} `{Scalar T}.
Context {Layer FVar Rng : Type} `{LayerOps T Layer FVar Rng}.
Context `{MinibatchSampler}.

Lemma fed_length (full_cov : bool) lz F g Fs Fmeans Fvars g' :
  fed full_cov lz F g Fs Fmeans Fvars g' ->
  length Fs = length lz /\ length Fmeans = length lz
  /\ length Fvars = length lz.
Proof.
  induction 1 as [|? ? ? ? ? ? ? ? ? ? ? ? ? _ _ IH]; simpl.
  - auto.
  - destruct IH as (-> & -> & ->); auto.
Qed.

Lemma fed_deterministic (full_cov : bool) lz F g Fs Fmeans Fvars g' :
  fed full_cov lz F g Fs Fmeans Fvars g' ->
  forall Fs2 Fmeans2 Fvars2 g2,
    fed full_cov lz F g Fs2 Fmeans2 Fvars2 g2 ->
    Fs2 = Fs /\ Fmeans2 = Fmeans /\ Fvars2 = Fvars /\ g2 = g'.
Proof.
  induction 1 as [|layer z rest F g F' Fmean Fvar g' Fs Fmeans Fvars g'' E _ IH];
    intros Fs2 Fmeans2 Fvars2 g2 Hfed; inversion Hfed; subst.
  - auto.
  - match goal with
    | E2 : sample_from_conditional _ _ _ _ _ = _ |- _ =>
        rewrite E in E2; inversion E2; subst
    end.
    match goal with
    | Hrest : fed _ rest _ _ _ _ _ _ |- _ =>
        destruct (IH _ _ _ _ Hrest) as (-> & -> & -> & ->)
    end.
    auto.
Qed.

Lemma fed_sample_axis (full_cov : bool) lz F g Fs Fmeans Fvars g' :
  fed full_cov lz F g Fs Fmeans Fvars g' ->
  Forall (fun lzi => keeps_sample_axis (fst lzi)) lz ->
  Forall (fun F' => dimS F' = dimS F) Fs.
Proof.
  induction 1 as [|layer z rest F g F' Fmean Fvar g' Fs Fmeans Fvars g'' E _ IH];
    intros Hk.
  - constructor.
  - inversion Hk as [|? ? Hl Hrest]; subst. simpl in Hl.
    assert (EF : dimS F' = dimS F).
    { specialize (Hl F z full_cov g). rewrite E in Hl. exact Hl. }
    constructor; [exact EF|].
    rewrite <- EF. apply IH. exact Hrest.
Qed.

(** The accumulating loop computes the chain described by [fed]. *)
Lemma propagate_loop_fed (full_cov : bool) lz :
  forall F Fs Fmeans Fvars g,
  exists Fs' Fmeans' Fvars' g',
    propagate_loop lz full_cov F (Fs, Fmeans, Fvars) g
    = ((Fs ++ Fs', Fmeans ++ Fmeans', Fvars ++ Fvars'), g')
    /\ fed full_cov lz F g Fs' Fmeans' Fvars' g'.
Proof.
  induction lz as [|[layer z] rest IH]; intros F Fs Fmeans Fvars g.
  - exists [], [], [], g. simpl. rewrite !app_nil_r. split; [reflexivity|constructor].
  - simpl.
    destruct (sample_from_conditional layer F z full_cov g)
      as [[[F' Fmean] Fvar] g1] eqn:E.
    destruct (IH F' (Fs ++ [F']) (Fmeans ++ [Fmean]) (Fvars ++ [Fvar]) g1)
      as (Fs' & Fmeans' & Fvars' & g' & Eloop & Hfed).
    exists (F' :: Fs'), (Fmean :: Fmeans'), (Fvar :: Fvars'), g'.
    split.
    + rewrite Eloop, <- !app_assoc. reflexivity.
    + econstructor; eassumption.
Qed.

Lemma combine_repeat_None (ls : list Layer) :
  combine ls (repeat (@None (tensor3 T)) (length ls)) = no_noise ls.
Proof.
  induction ls as [|l ls IH]; simpl; [reflexivity|]. now rewrite IH.
Qed.

Lemma combine_firstn_length {A B : Type} (l : list A) (l' : list B) :
  combine (firstn (length l') l) l' = combine l l'.
Proof.
  revert l'. induction l as [|a l IH]; intros [|b l']; simpl; try reflexivity.
  now rewrite IH.
Qed.

Lemma propagate_fed (m : DGP_Base) X full_cov S zs g :
  exists Fs Fmeans Fvars g',
    propagate m X full_cov S zs g = ((Fs, Fmeans, Fvars), g')
    /\ fed full_cov (combine (layers m) (zs_or_default zs (length (layers m))))
           (tile_samples X S) g Fs Fmeans Fvars g'.
Proof.
  unfold propagate.
  destruct (propagate_loop_fed full_cov
              (combine (layers m) (zs_or_default zs (length (layers m))))
              (tile_samples X S) [] [] [] g)
    as (Fs & Fmeans & Fvars & g' & E & Hfed).
  exists Fs, Fmeans, Fvars, g'. split; [exact E | exact Hfed].
Qed.

Lemma slice_tile (X : matrix T) S s : s < S -> slice (tile_samples X S) s = X.
Proof.
  intros Hs. unfold slice, tile_samples; simpl.
  rewrite nth_repeat_lt by exact Hs. destruct X; reflexivity.
Qed.

Lemma dimS_tile (X : matrix T) S : dimS (tile_samples X S) = S.
Proof. unfold dimS, tile_samples; simpl. apply repeat_length. Qed.
End PropagationFacts.

Section PropagationClaims.
Context {T : Type} `{Scalar T}.
Context {Layer FVar Rng : Type} `{LayerOps T Layer FVar Rng}.
Context `{MinibatchSampler}.

(** C2: without a [zs] argument, [propagate] returns three lists with one
    entry per layer, in layer order; the first layer is given [X] repeated
    [S] times along a new leading axis, every later layer the sample tensor
    of the layer before it, and (layers keeping the sample axis) every
    returned sample tensor has [S] samples. *)
Theorem propagate_one_triple_per_layer
        (m : DGP_Base) (X : matrix T) (full_cov : bool) (S : nat) (g : Rng) :
  1 <= S ->
  exists Fs Fmeans Fvars g',
    propagate m X full_cov S None g = ((Fs, Fmeans, Fvars), g')
    /\ length Fs = length (layers m)
    /\ length Fmeans = length (layers m)
    /\ length Fvars = length (layers m)
    /\ fed full_cov (no_noise (layers m)) (tile_samples X S) g
           Fs Fmeans Fvars g'
    /\ dimS (tile_samples X S) = S
    /\ (forall s, s < S -> slice (tile_samples X S) s = X)
    /\ (Forall keeps_sample_axis (layers m) ->
        Forall (fun F => dimS F = S) Fs).
Proof.
  intros _.
  destruct (propagate_fed m X full_cov S None g)
    as (Fs & Fmeans & Fvars & g' & E & Hfed).
  simpl in Hfed. rewrite combine_repeat_None in Hfed.
  exists Fs, Fmeans, Fvars, g'.
  destruct (fed_length Hfed) as (L1 & L2 & L3).
  unfold no_noise in L1, L2, L3. rewrite length_map in L1, L2, L3.
  repeat split; auto using dimS_tile, slice_tile.
  intros Hk.
  assert (Hax : Forall (fun F' => dimS F' = dimS (tile_samples X S)) Fs).
  { eapply fed_sample_axis; [exact Hfed|].
    unfold no_noise. rewrite Forall_map. simpl. exact Hk. }
  rewrite dimS_tile in Hax. exact Hax.
Qed.

(** C10: an explicit non-empty [zs] shorter than the layer list stops the
    pass after [length zs] layers, so each returned list has [length zs]
    entries; [zs = None] and [zs = []] both stand for one [None] per layer,
    so every layer is applied with [z = None]. *)
Theorem propagate_short_zs
        (m : DGP_Base) (X : matrix T) (full_cov : bool) (S : nat)
        (zs : list (option (tensor3 T))) (g : Rng) :
  (zs <> [] -> length zs < length (layers m) ->
   exists Fs Fmeans Fvars g',
     propagate m X full_cov S (Some zs) g = ((Fs, Fmeans, Fvars), g')
     /\ length Fs = length zs
     /\ length Fmeans = length zs
     /\ length Fvars = length zs
     /\ fed full_cov (combine (firstn (length zs) (layers m)) zs)
            (tile_samples X S) g Fs Fmeans Fvars g')
  /\ propagate m X full_cov S (Some []) g = propagate m X full_cov S None g
  /\ exists Fs Fmeans Fvars g',
       propagate m X full_cov S None g = ((Fs, Fmeans, Fvars), g')
       /\ length Fs = length (layers m)
       /\ fed full_cov (no_noise (layers m)) (tile_samples X S) g
              Fs Fmeans Fvars g'.
Proof.
  split; [|split].
  - intros Hne Hlt.
    destruct (propagate_fed m X full_cov S (Some zs) g)
      as (Fs & Fmeans & Fvars & g' & E & Hfed).
    assert (Ez : zs_or_default (Some zs) (length (layers m)) = zs).
    { destruct zs; [contradiction Hne; reflexivity | reflexivity]. }
    rewrite Ez in Hfed.
    exists Fs, Fmeans, Fvars, g'.
    destruct (fed_length Hfed) as (L1 & L2 & L3).
    rewrite length_combine in L1, L2, L3.
    rewrite combine_firstn_length.
    repeat split; try lia; assumption.
  - reflexivity.
  - destruct (propagate_fed m X full_cov S None g)
      as (Fs & Fmeans & Fvars & g' & E & Hfed).
    simpl in Hfed. rewrite combine_repeat_None in Hfed.
    exists Fs, Fmeans, Fvars, g'.
    destruct (fed_length Hfed) as (L1 & _).
    unfold no_noise in L1. rewrite length_map in L1. auto.
Qed.

Lemma propagate_loop_noise_given (full_cov : bool) lz :
  Forall (fun lzi => uses_given_noise (fst lzi) /\ snd lzi <> None) lz ->
  forall F acc g1 g2,
    fst (propagate_loop lz full_cov F acc g1)
    = fst (propagate_loop lz full_cov F acc g2).
Proof.
  induction 1 as [|[layer z] rest [Hu Hz] _ IH]; intros F [[Fs Fmeans] Fvars] g1 g2.
  - reflexivity.
  - simpl in *. destruct z as [z|]; [|contradiction Hz; reflexivity].
    specialize (Hu F z full_cov g1 g2).
    destruct (sample_from_conditional layer F (Some z) full_cov g1)
      as [[[F1 M1] V1] g1'].
    destruct (sample_from_conditional layer F (Some z) full_cov g2)
      as [[[F2 M2] V2] g2'].
    simpl in Hu. inversion Hu; subst. apply IH.
Qed.
End PropagationClaims.

Section Reproducibility.
Context {T : Type} `{Scalar T}.
Context {Layer FVar Rng : Type} `{LayerOps T Layer FVar Rng}.
Context `{NoiseSource T Layer Rng}.
Context `{MinibatchSampler}.

Lemma drawn_noise_length (full_cov : bool) (ls : list Layer) :
  forall F g, length (drawn_noise ls full_cov F g) = length ls.
Proof.
  induction ls as [|layer rest IH]; intros F g; [reflexivity|].
  simpl. destruct (draw_noise layer F full_cov g) as [z g1].
  destruct (sample_from_conditional layer F (Some z) full_cov g1)
    as [[[F' Fmean] Fvar] g2].
  simpl. now rewrite IH.
Qed.

(** A pass in which the layers draw their noise returns what the pass
    returns in which they are handed that noise. *)
Lemma propagate_loop_drawn (full_cov : bool) (ls : list Layer) :
  Forall (fun layer => uses_given_noise layer /\ draws_then_uses layer) ls ->
  forall F acc g g0,
    fst (propagate_loop (no_noise ls) full_cov F acc g)
    = fst (propagate_loop
             (combine ls (map Some (drawn_noise ls full_cov F g)))
             full_cov F acc g0).
Proof.
  induction 1 as [|layer rest [Hu Hd] _ IH]; intros F [[Fs Fmeans] Fvars] g g0.
  - reflexivity.
  - cbn [no_noise map drawn_noise].
    specialize (Hd F full_cov g).
    destruct (draw_noise layer F full_cov g) as [z g1]. cbn [fst snd] in Hd.
    specialize (Hu F z full_cov g1 g0).
    destruct (sample_from_conditional layer F (Some z) full_cov g1)
      as [[[F1 M1] V1] g1'].
    cbn [map combine propagate_loop]. rewrite Hd.
    destruct (sample_from_conditional layer F (Some z) full_cov g0)
      as [[[F2 M2] V2] g2'].
    cbn [fst] in Hu. injection Hu as <- <- <-.
    apply IH.
Qed.

Lemma combine_given_noise (ls : list Layer) :
  Forall (fun layer => uses_given_noise layer /\ draws_then_uses layer) ls ->
  forall zs : list (option (tensor3 T)),
    Forall (fun z => z <> None) zs ->
    Forall (fun lzi => uses_given_noise (fst lzi) /\ snd lzi <> None)
           (combine ls zs).
Proof.
  induction 1 as [|l ls [Hl _] _ IH]; intros zs Hall.
  - constructor.
  - destruct zs as [|z zs]; simpl; [constructor|].
    inversion Hall; subst. constructor; [split; assumption|].
    apply IH. assumption.
Qed.

(** C9: the forward pass is a function of its inputs and of the noise.
    For layers that use the noise they are handed and otherwise draw it
    first: with the noise of every layer given in [zs], two runs return the
    same sample, mean and variance lists whatever their random sources are;
    a run without [zs] returns what the run returns that is handed the noise
    the first one drew; hence two runs that draw the same noise return the
    same lists. *)
Theorem propagate_reproducible
        (m : DGP_Base) (X : matrix T) (full_cov : bool) (S : nat) :
  Forall (fun layer => uses_given_noise layer /\ draws_then_uses layer)
         (layers m) ->
  (forall zs g1 g2,
     zs <> [] -> Forall (fun z => z <> None) zs ->
     fst (propagate m X full_cov S (Some zs) g1)
     = fst (propagate m X full_cov S (Some zs) g2))
  /\ (forall g g0,
        fst (propagate m X full_cov S None g)
        = fst (propagate m X full_cov S
                 (Some (map Some (drawn_noise (layers m) full_cov
                                              (tile_samples X S) g)))
                 g0))
  /\ (forall g1 g2,
        drawn_noise (layers m) full_cov (tile_samples X S) g1
        = drawn_noise (layers m) full_cov (tile_samples X S) g2 ->
        fst (propagate m X full_cov S None g1)
        = fst (propagate m X full_cov S None g2)).
Proof.
  intros Hlayers.
  assert (Hdrawn : forall g g0,
             fst (propagate m X full_cov S None g)
             = fst (propagate m X full_cov S
                      (Some (map Some (drawn_noise (layers m) full_cov
                                                   (tile_samples X S) g)))
                      g0)).
  { intros g g0. unfold propagate. cbn [zs_or_default].
    rewrite combine_repeat_None.
    rewrite (propagate_loop_drawn full_cov Hlayers _ _ g g0). f_equal.
    destruct (layers m) as [|layer rest] eqn:El; [reflexivity|].
    pose proof (drawn_noise_length full_cov (layer :: rest)
                  (tile_samples X S) g) as Hlen.
    destruct (drawn_noise (layer :: rest) full_cov (tile_samples X S) g)
      as [|z zs]; [discriminate Hlen | reflexivity]. }
  split; [|split].
  - intros zs g1 g2 Hne Hall. unfold propagate.
    apply propagate_loop_noise_given.
    destruct zs as [|z0 zs']; [contradiction Hne; reflexivity|].
    cbn [zs_or_default]. apply combine_given_noise; assumption.
  - exact Hdrawn.
  - intros g1 g2 Hsame.
    rewrite (Hdrawn g1 g1), (Hdrawn g2 g1), Hsame. reflexivity.
Qed.
End Reproducibility.

(** ** Array facts *)

Section ArrayFacts.
Context {T : Type} `{Scalar T}.

Lemma nth_map_seq {A : Type} (f : nat -> A) (n i : nat) (d : A) :
  i < n -> nth i (map f (seq 0 n)) d = f i.
Proof.
  intros Hi.
  rewrite (nth_indep _ d (f 0)) by (rewrite length_map, length_seq; exact Hi).
  rewrite map_nth, seq_nth by exact Hi. reflexivity.
Qed.

Lemma entry_table (f : nat -> nat -> T) (r c i j : nat) :
  i < r -> j < c ->
  entry (Matrix c (map (fun i => map (fun j => f i j) (seq 0 c)) (seq 0 r))) i j
  = f i j.
Proof.
  intros Hi Hj. unfold entry; simpl.
  rewrite (nth_map_seq (fun i => map (fun j => f i j) (seq 0 c))) by exact Hi.
  apply (nth_map_seq (f i)). exact Hj.
Qed.

Lemma entry_transpose (m : matrix T) (i j : nat) :
  i < ncols m -> j < nrows m -> entry (transpose m) i j = entry m j i.
Proof.
  intros Hi Hj. unfold transpose.
  apply (entry_table (fun a b => entry m b a)); assumption.
Qed.

Lemma entry_take_rows (k : nat) (m : matrix T) (i j : nat) :
  i < k -> entry (take_rows k m) i j = entry m i j.
Proof.
  intros Hi. unfold entry, take_rows; simpl.
  rewrite nth_firstn. apply Nat.ltb_lt in Hi. rewrite Hi. reflexivity.
Qed.

Lemma nrows_take_rows (k : nat) (m : matrix T) :
  nrows (take_rows k m) = Nat.min k (nrows m).
Proof. unfold nrows, take_rows; simpl. apply length_firstn. Qed.

Lemma nrows_transpose (m : matrix T) : nrows (transpose m) = ncols m.
Proof. unfold nrows, transpose; simpl. now rewrite length_map, length_seq. Qed.

Lemma well_shaped_table (f : nat -> nat -> T) (r c : nat) :
  well_shaped (Matrix c (map (fun i => map (fun j => f i j) (seq 0 c)) (seq 0 r))).
Proof.
  unfold well_shaped; simpl. apply Forall_map, Forall_forall.
  intros i _. now rewrite length_map, length_seq.
Qed.

Lemma nrows_eye (n : nat) : nrows (eye n) = n.
Proof. unfold nrows, eye; simpl. now rewrite length_map, length_seq. Qed.

Lemma nrows_zeros (r c : nat) : nrows (zeros r c) = r.
Proof. unfold nrows, zeros; simpl. apply repeat_length. Qed.

Lemma combine_map_repeat {A B C : Type} (f : A -> B) (z : C) (l : list A) :
  combine (map f l) (repeat z (length l)) = map (fun x => (f x, z)) l.
Proof. induction l as [|a l IH]; simpl; [reflexivity|]. now rewrite IH. Qed.

Lemma concatenate_eye_zeros (n k : nat) :
  concatenate1 (eye n) (zeros n k) = Ok (padded_identity n k).
Proof.
  unfold concatenate1. rewrite nrows_eye, nrows_zeros, Nat.eqb_refl.
  unfold padded_identity, eye, zeros; simpl. do 2 f_equal.
  replace (repeat (repeat s_zero k) n)
    with (repeat (repeat s_zero k) (length (seq 0 n)))
    by now rewrite length_seq.
  rewrite combine_map_repeat, map_map. reflexivity.
Qed.

Lemma entry_padded_identity (n k i j : nat) :
  i < n -> j < n + k ->
  entry (padded_identity n k) i j = if j <? n then delta i j else s_zero.
Proof.
  intros Hi Hj. unfold entry, padded_identity; simpl.
  rewrite (nth_map_seq
             (fun i => map (fun j => delta i j) (seq 0 n) ++ repeat s_zero k))
    by exact Hi.
  destruct (j <? n) eqn:E.
  - apply Nat.ltb_lt in E.
    rewrite app_nth1 by (rewrite length_map, length_seq; exact E).
    apply (nth_map_seq (delta i)). exact E.
  - apply Nat.ltb_ge in E.
    rewrite app_nth2 by (rewrite length_map, length_seq; exact E).
    rewrite length_map, length_seq. apply nth_repeat_lt. lia.
Qed.

Lemma well_shaped_padded_identity (n k : nat) :
  well_shaped (padded_identity n k).
Proof.
  unfold well_shaped, padded_identity; simpl. apply Forall_map, Forall_forall.
  intros i _. now rewrite length_app, length_map, length_seq, repeat_length.
Qed.

Lemma nrows_padded_identity (n k : nat) : nrows (padded_identity n k) = n.
Proof. unfold nrows, padded_identity; simpl. now rewrite length_map, length_seq. Qed.

(** Shape and entries of a product. *)
Lemma dot_ok (a b : matrix T) :
  ncols a = nrows b ->
  exists c,
    dot a b = Ok c /\ nrows c = nrows a /\ ncols c = ncols b
    /\ well_shaped c
    /\ forall i j, i < nrows a -> j < ncols b ->
         entry c i j
         = sum_list (map (fun k => s_mul (entry a i k) (entry b k j))
                         (seq 0 (ncols a))).
Proof.
  intros E. unfold dot. apply Nat.eqb_eq in E. rewrite E.
  eexists. split; [reflexivity|]. split; [|split; [|split]].
  - unfold nrows; simpl. now rewrite length_map, length_seq.
  - reflexivity.
  - apply (well_shaped_table
             (fun i j => sum_list (map (fun k => s_mul (entry a i k) (entry b k j))
                                       (seq 0 (ncols a))))).
  - intros i j Hi Hj.
    apply (entry_table
             (fun i j => sum_list (map (fun k => s_mul (entry a i k) (entry b k j))
                                       (seq 0 (ncols a))))); assumption.
Qed.

Lemma dot_inv (a b c : matrix T) :
  dot a b = Ok c -> ncols a = nrows b /\ nrows c = nrows a /\ ncols c = ncols b.
Proof.
  unfold dot. destruct (ncols a =? nrows b) eqn:E; [|discriminate].
  intros [= <-]. apply Nat.eqb_eq in E. split; [exact E|]. split.
  - unfold nrows; simpl. now rewrite length_map, length_seq.
  - reflexivity.
Qed.
End ArrayFacts.

(** ** Layer stack builder *)

Section BuilderFacts.
Context {T : Type} `{Scalar T}.
Variables kernel_body custom_mf : Type.
Variable svd_Vh : matrix T -> matrix T.

(** One pass through the loop body, read backwards from its result. *)
Lemma inner_layer_inv (X Z X' Z' : matrix T) (ls ls' : list (SVGP_Layer kernel_body custom_mf))
      (kin kout : kernel kernel_body) :
  inner_layer svd_Vh (X, Z, ls) (kin, kout) = Ok (X', Z', ls') ->
  (input_dim kin = input_dim kout
   /\ X' = X /\ Z' = Z
   /\ ls' = ls ++ [SVGP kin Z (input_dim kout) Identity])
  \/ (input_dim kin <> input_dim kout
      /\ exists W,
          transition_W svd_Vh X (input_dim kin) (input_dim kout) = Ok W
          /\ dot Z W = Ok Z' /\ dot X W = Ok X'
          /\ ls' = ls ++ [SVGP kin Z (input_dim kout) (Linear W false)]).
Proof.
  unfold inner_layer.
  destruct (input_dim kin =? input_dim kout) eqn:E.
  - apply Nat.eqb_eq in E. intros [= <- <- <-]. left. auto.
  - apply Nat.eqb_neq in E. intros Hstep. right. split; [exact E|].
    destruct (transition_W svd_Vh X (input_dim kin) (input_dim kout))
      as [W|e]; simpl in Hstep; [|discriminate].
    destruct (dot Z W) as [Z1|e] eqn:EZ; simpl in Hstep; [|discriminate].
    destruct (dot X W) as [X1|e] eqn:EX; simpl in Hstep; [|discriminate].
    injection Hstep as <- <- <-. exists W. auto.
Qed.

(** ... and forwards, for a dimension-changing pair. *)
Lemma inner_layer_changing (X Z X' Z' W : matrix T) (ls : list (SVGP_Layer kernel_body custom_mf))
      (kin kout : kernel kernel_body) :
  input_dim kin <> input_dim kout ->
  transition_W svd_Vh X (input_dim kin) (input_dim kout) = Ok W ->
  dot Z W = Ok Z' -> dot X W = Ok X' ->
  inner_layer svd_Vh (X, Z, ls) (kin, kout)
  = Ok (X', Z', ls ++ [SVGP kin Z (input_dim kout) (Linear W false)]).
Proof.
  intros Hne HW HZ HX. unfold inner_layer.
  apply Nat.eqb_neq in Hne. rewrite Hne, HW. simpl. rewrite HZ. simpl.
  rewrite HX. reflexivity.
Qed.

Lemma inner_layer_same (X Z : matrix T) (ls : list (SVGP_Layer kernel_body custom_mf)) (kin kout : kernel kernel_body) :
  input_dim kin = input_dim kout ->
  inner_layer svd_Vh (X, Z, ls) (kin, kout)
  = Ok (X, Z, ls ++ [SVGP kin Z (input_dim kout) Identity]).
Proof.
  intros E. unfold inner_layer. apply Nat.eqb_eq in E. rewrite E. reflexivity.
Qed.

(** The projection of the stepping-down branch. *)
Lemma pca_projection (V : matrix T) (d : nat) :
  let W := transpose (take_rows d V) in
  nrows W = ncols V
  /\ ncols W = Nat.min d (nrows V)
  /\ (forall i j, i < ncols V -> j < ncols W -> entry W i j = entry V j i)
  /\ (orthonormal_rows V -> orthonormal_cols W).
Proof.
  intros W.
  assert (Hr : nrows W = ncols V) by (unfold W; now rewrite nrows_transpose).
  assert (Hc : ncols W = Nat.min d (nrows V))
    by (unfold W; simpl; apply nrows_take_rows).
  assert (He : forall i j, i < ncols V -> j < ncols W ->
                           entry W i j = entry V j i).
  { intros i j Hi Hj. unfold W.
    rewrite entry_transpose.
    - apply entry_take_rows. lia.
    - exact Hi.
    - rewrite nrows_take_rows. lia. }
  repeat split; try assumption.
  intros Horth j k Hj Hk. unfold col_dot. rewrite Hr.
  rewrite <- (Horth j k) by lia. unfold row_dot.
  f_equal. apply map_ext_in. intros i Hi. apply in_seq in Hi.
  rewrite !He by (assumption || lia). reflexivity.
Qed.

(** Which matrix the two branches build. *)
Lemma transition_W_down (X : matrix T) (dim_in dim_out : nat) :
  dim_out < dim_in ->
  transition_W svd_Vh X dim_in dim_out
  = Ok (transpose (take_rows dim_out (svd_Vh X))).
Proof.
  intros Hlt. unfold transition_W.
  apply Nat.ltb_lt in Hlt. rewrite Hlt. reflexivity.
Qed.

Lemma transition_W_up (X : matrix T) (dim_in dim_out : nat) :
  dim_in <= dim_out ->
  transition_W svd_Vh X dim_in dim_out
  = Ok (padded_identity dim_in (dim_out - dim_in)).
Proof.
  intros Hle. unfold transition_W.
  apply Nat.ltb_ge in Hle. rewrite Hle. apply concatenate_eye_zeros.
Qed.

(** With running matrices of [dim_in] columns, a dimension-changing pass
    through the loop body goes through. *)
Lemma inner_layer_ok (X Z : matrix T) (ls : list (SVGP_Layer kernel_body custom_mf)) (kin kout : kernel kernel_body) :
  ncols X = input_dim kin -> ncols Z = input_dim kin ->
  ncols (svd_Vh X) = ncols X ->
  input_dim kin <> input_dim kout ->
  exists W X' Z',
    transition_W svd_Vh X (input_dim kin) (input_dim kout) = Ok W
    /\ nrows W = input_dim kin
    /\ dot Z W = Ok Z' /\ dot X W = Ok X'
    /\ inner_layer svd_Vh (X, Z, ls) (kin, kout)
       = Ok (X', Z', ls ++ [SVGP kin Z (input_dim kout) (Linear W false)]).
Proof.
  intros HX HZ HV Hne.
  assert (HW : exists W,
             transition_W svd_Vh X (input_dim kin) (input_dim kout) = Ok W
             /\ nrows W = input_dim kin).
  { destruct (Nat.lt_ge_cases (input_dim kout) (input_dim kin)) as [Hlt | Hge].
    - eexists. split; [apply transition_W_down; exact Hlt|].
      rewrite nrows_transpose. simpl. congruence.
    - eexists. split; [apply transition_W_up; exact Hge|].
      apply nrows_padded_identity. }
  destruct HW as (W & HW & HrW).
  destruct (dot_ok Z W) as (Z' & EZ & _); [congruence|].
  destruct (dot_ok X W) as (X' & EX & _); [congruence|].
  exists W, X', Z'. repeat split; try assumption.
  apply inner_layer_changing; assumption.
Qed.
End BuilderFacts.


Section BuilderClaims.
Context {T : Type} `{Scalar T}.
Variables kernel_body custom_mf : Type.
Variable svd_Vh : matrix T -> matrix T.


(** C5: a transition with [d_in <> d_out] replaces the running inducing
    matrix and the running data matrix by their products with the [W] just
    built, which have [d_out] columns (stepping down: provided the
    decomposition has at least [d_out] components); a transition with
    [d_in = d_out] leaves both as they are. *)
Theorem running_matrices_after_transition
        (X_running Z_running : matrix T)
        (ls : list (SVGP_Layer kernel_body custom_mf))
        (kern_in kern_out : kernel kernel_body) :
  ncols X_running = input_dim kern_in -> ncols Z_running = input_dim kern_in ->
  ncols (svd_Vh X_running) = ncols X_running ->
  (input_dim kern_out < input_dim kern_in ->
   input_dim kern_out <= nrows (svd_Vh X_running)) ->
  exists X' Z' ls',
    inner_layer svd_Vh (X_running, Z_running, ls) (kern_in, kern_out)
    = Ok (X', Z', ls')
    /\ (input_dim kern_in = input_dim kern_out ->
        X' = X_running /\ Z' = Z_running)
    /\ (input_dim kern_in <> input_dim kern_out ->
        exists W,
          transition_W svd_Vh X_running (input_dim kern_in) (input_dim kern_out)
          = Ok W
          /\ In (SVGP kern_in Z_running (input_dim kern_out) (Linear W false)) ls'
          /\ dot Z_running W = Ok Z' /\ dot X_running W = Ok X'
          /\ nrows Z' = nrows Z_running /\ ncols Z' = input_dim kern_out
          /\ nrows X' = nrows X_running /\ ncols X' = input_dim kern_out
          /\ (forall i j, i < nrows Z_running -> j < input_dim kern_out ->
                entry Z' i j
                = sum_list (map (fun k => s_mul (entry Z_running i k) (entry W k j))
                                (seq 0 (input_dim kern_in))))
          /\ (forall i j, i < nrows X_running -> j < input_dim kern_out ->
                entry X' i j
                = sum_list (map (fun k => s_mul (entry X_running i k) (entry W k j))
                                (seq 0 (input_dim kern_in))))).
Proof.
  intros HX HZ HV Hrank.
  destruct (Nat.eq_dec (input_dim kern_in) (input_dim kern_out)) as [Heq | Hne].
  - exists X_running, Z_running,
      (ls ++ [SVGP kern_in Z_running (input_dim kern_out) Identity]).
    split; [apply inner_layer_same; exact Heq|].
    split; [auto | intros Hne; contradiction].
  - destruct (inner_layer_ok svd_Vh X_running Z_running ls kern_in kern_out
                HX HZ HV Hne)
      as (W & X' & Z' & HW & HrW & EZ & EX & Estep).
    exists X', Z',
      (ls ++ [SVGP kern_in Z_running (input_dim kern_out) (Linear W false)]).
    split; [exact Estep|]. split; [intros Eq; contradiction | intros _].
    assert (HcW : ncols W = input_dim kern_out).
    { destruct (Nat.lt_ge_cases (input_dim kern_out) (input_dim kern_in))
        as [Hlt | Hge].
      - rewrite transition_W_down in HW by exact Hlt. injection HW as <-.
        destruct (pca_projection (svd_Vh X_running) (input_dim kern_out))
          as (_ & Hc & _).
        specialize (Hrank Hlt). lia.
      - rewrite transition_W_up in HW by exact Hge. injection HW as <-.
        simpl. lia. }
    destruct (dot_ok Z_running W) as (Z2 & EZ2 & Z2r & Z2c & _ & Z2e); [congruence|].
    destruct (dot_ok X_running W) as (X2 & EX2 & X2r & X2c & _ & X2e); [congruence|].
    rewrite EZ in EZ2. rewrite EX in EX2.
    injection EZ2 as <-. injection EX2 as <-.
    exists W. split; [exact HW|]. split.
    { apply in_or_app. right. left. reflexivity. }
    split; [exact EZ|]. split; [exact EX|].
    split; [exact Z2r|]. split; [congruence|].
    split; [exact X2r|]. split; [congruence|].
    split.
    + intros i j Hi Hj. rewrite Z2e by (assumption || lia). now rewrite HZ.
    + intros i j Hi Hj. rewrite X2e by (assumption || lia). now rewrite HX.
Qed.
End BuilderClaims.

Section BuilderOrder.
Context {T : Type} `{Scalar T}.
Variables kernel_body custom_mf : Type.
Variable svd_Vh : matrix T -> matrix T.

(** C4, as the code has it: the layer for [k_in] is built before the running
    matrices are replaced, so it receives the inducing locations as they are
    before the transition; their product with [W] is what the layer built
    next receives, be it the one of the next pair or the final layer. *)
Theorem layer_built_before_projection
        (X Z X' Z' : matrix T) (ls ls' : list (SVGP_Layer kernel_body custom_mf))
        (kern_in kern_out : kernel kernel_body) :
  inner_layer svd_Vh (X, Z, ls) (kern_in, kern_out) = Ok (X', Z', ls') ->
  (exists mf, ls' = ls ++ [SVGP kern_in Z (input_dim kern_out) mf])
  /\ (input_dim kern_in <> input_dim kern_out ->
      exists W,
        transition_W svd_Vh X (input_dim kern_in) (input_dim kern_out) = Ok W
        /\ dot Z W = Ok Z' /\ ncols Z' = ncols W)
  /\ (forall kern_next X'' Z'' ls'',
        inner_layer svd_Vh (X', Z', ls') (kern_out, kern_next)
        = Ok (X'', Z'', ls'') ->
        exists mf', ls'' = ls' ++ [SVGP kern_out Z' (input_dim kern_next) mf'])
  /\ (forall Y num_outputs_arg mean_function_arg,
        ls = [] ->
        DGP_layers svd_Vh X Y Z [kern_in; kern_out]
                   num_outputs_arg mean_function_arg
        = Ok (ls' ++ [SVGP kern_out Z' (or_default num_outputs_arg (ncols Y))
                           mean_function_arg])).
Proof.
  intros Hstep.
  assert (Hlayer : forall (A B A' B' : matrix T)
                          (l l' : list (SVGP_Layer kernel_body custom_mf))
                          (kin kout : kernel kernel_body),
             inner_layer svd_Vh (A, B, l) (kin, kout) = Ok (A', B', l') ->
             exists mf, l' = l ++ [SVGP kin B (input_dim kout) mf]).
  { intros A B A' B' l l' kin kout Hs.
    destruct (inner_layer_inv _ _ _ _ _ _ Hs)
      as [(_ & _ & _ & ->) | (_ & W & _ & _ & _ & ->)]; eexists; reflexivity. }
  split; [eapply Hlayer; exact Hstep|]. split; [|split].
  - intros Hne.
    destruct (inner_layer_inv _ _ _ _ _ _ Hstep)
      as [(Eq & _) | (_ & W & HW & EZ & _)]; [contradiction|].
    exists W. split; [exact HW|]. split; [exact EZ|].
    apply (dot_inv _ _ EZ).
  - intros kern_next X'' Z'' ls'' Hnext. eapply Hlayer; exact Hnext.
  - intros Y no mfa ->. unfold DGP_layers.
    cbn [removelast tl combine inner_layers].
    rewrite Hstep. reflexivity.
Qed.

(** C8, as the code has it: with an empty kernel list the constructor ends
    at once in the [IndexError] of [kernels[-1]], whatever the other
    arguments are; an inducing set with no rows is not checked: with a single
    kernel it is handed unchanged to the final layer. *)
Theorem constructor_does_not_validate
        (X Y Z : matrix T) (num_outputs_arg : option nat)
        (mean_function_arg : mean_function custom_mf)
        (kern0 : kernel kernel_body) :
  DGP_layers svd_Vh X Y Z ([] : list (kernel kernel_body))
             num_outputs_arg mean_function_arg
  = Raise IndexError
  /\ (nrows Z = 0 ->
      DGP_layers svd_Vh X Y Z [kern0] num_outputs_arg mean_function_arg
      = Ok [SVGP kern0 Z (or_default num_outputs_arg (ncols Y))
                 mean_function_arg]).
Proof.
  split.
  - reflexivity.
  - intros _. reflexivity.
Qed.
End BuilderOrder.

(** C4 fails as stated: with kernels of input dimensions 1 and 2 and one
    inducing point [[7]], the layer built for the first kernel holds [[7]]
    (one column), not the padded [[7; 0]], which goes to the final layer. *)
Lemma first_layer_holds_unprojected_Z :
  DGP_layers Toy.toy_svd Toy.X1 Toy.Y2 Toy.Z1 [Toy.k 1; Toy.k 2] None
             (Zero : mean_function unit)
  = Ok [SVGP (Toy.k 1) (Matrix 1 [[7%Z]]) 2
             (Linear (Matrix 2 [[1%Z; 0%Z]]) false);
        SVGP (Toy.k 2) (Matrix 2 [[7%Z; 0%Z]]) 1 Zero]
  /\ transition_W Toy.toy_svd Toy.X1 1 2 = Ok (Matrix 2 [[1%Z; 0%Z]])
  /\ dot Toy.Z1 (Matrix 2 [[1%Z; 0%Z]]) = Ok (Matrix 2 [[7%Z; 0%Z]])
  /\ Matrix 1 [[7%Z]] <> Matrix 2 [[7%Z; 0%Z]].
Proof.
  repeat split; try reflexivity. discriminate.
Qed.

(** C8 fails as stated: an empty kernel list ends in [IndexError], which is
    no configuration error. *)
Lemma empty_kernel_list_is_IndexError :
  DGP_layers Toy.toy_svd Toy.X1 Toy.Y2 Toy.Z1 ([] : list (kernel unit)) None
             (Zero : mean_function unit)
  = Raise IndexError
  /\ forall what,
      DGP_layers Toy.toy_svd Toy.X1 Toy.Y2 Toy.Z1 ([] : list (kernel unit)) None
                 (Zero : mean_function unit)
      <> Raise (ConfigurationError what).
Proof.
  split; [reflexivity | intros what; discriminate].
Qed.

(** ** Data holders *)

Section HolderClaims.
Context {T : Type} `{Scalar T}.
Context {Layer FVar Rng : Type} `{LayerOps T Layer FVar Rng}.
Context `{MinibatchSampler}.

Lemma nrows_gather (d : matrix T) (idx : list nat) :
  nrows (gather d idx) = length idx.
Proof. unfold nrows, gather; simpl. apply length_map. Qed.

(** C7: a model built with a minibatch size holds [X] and [Y] in two
    minibatch holders with the same batch size and the same seed [0]; for
    data of equal row count every draw gives batches of equal row count, and
    row [i] of the [X] batch and row [i] of the [Y] batch are the rows of one
    and the same index [j] of the dataset. *)
Theorem minibatch_rows_correspond
        (X Y : matrix T) (lik : Likelihood T FVar) (ls : list Layer)
        (b num_samples_arg : nat) (num_data_arg : option nat) (t : nat) :
  nrows X = nrows Y ->
  let m := DGP_Base_init X Y lik ls (Some (S b)) num_samples_arg num_data_arg in
  let X_batch := read (model_X m) t in
  let Y_batch := read (model_Y m) t in
  model_X m = Minibatch X (S b) 0%Z
  /\ model_Y m = Minibatch Y (S b) 0%Z
  /\ nrows X_batch = nrows Y_batch
  /\ forall i, i < nrows X_batch ->
       exists j,
         j = nth i (minibatch_rows 0%Z (S b) (nrows X) t) 0
         /\ nth i (rows X_batch) [] = nth j (rows X) []
         /\ nth i (rows Y_batch) [] = nth j (rows Y) [].
Proof.
  intros HN m X_batch Y_batch.
  split; [reflexivity|]. split; [reflexivity|].
  unfold X_batch, Y_batch; simpl. rewrite <- HN.
  split.
  - now rewrite !nrows_gather.
  - intros i Hi. rewrite nrows_gather in Hi.
    exists (nth i (minibatch_rows 0%Z (S b) (nrows X) t) 0).
    split; [reflexivity|]. unfold gather; simpl.
    split.
    + rewrite (nth_indep _ [] (nth 0 (rows X) []))
        by (rewrite length_map; exact Hi).
      apply (map_nth (fun k => nth k (rows X) [])).
    + rewrite (nth_indep _ [] (nth 0 (rows Y) []))
        by (rewrite length_map; exact Hi).
      apply (map_nth (fun k => nth k (rows Y) [])).
Qed.
End HolderClaims.

(** ** Bound assembly *)

Section ObjectiveClaims.
Context {T : Type} `{Scalar T}.
Context {Layer FVar Rng : Type} `{LayerOps T Layer FVar Rng}.
Context `{MinibatchSampler}.

Lemma nrows_reduce_mean0 (t : tensor3 T) : nrows (reduce_mean0 t) = dimN t.
Proof. unfold nrows, reduce_mean0; simpl. now rewrite length_map, length_seq. Qed.

Lemma entry_reduce_mean0 (t : tensor3 T) (n d : nat) :
  n < dimN t -> d < dimD t -> entry (reduce_mean0 t) n d = sample_average t n d.
Proof.
  intros Hn Hd. unfold reduce_mean0.
  apply (entry_table (fun n d => sample_average t n d)); assumption.
Qed.

(** Summing the mean over the sample axis is summing the per-point sample
    averages. *)
Lemma reduce_sum_reduce_mean0 (t : tensor3 T) :
  reduce_sum (reduce_mean0 t) = L_spec t.
Proof.
  unfold reduce_sum, L_spec. rewrite nrows_reduce_mean0.
  rewrite flat_map_concat_map. do 2 f_equal.
  apply map_ext_in. intros n Hn. apply in_seq in Hn.
  apply map_ext_in. intros d Hd. apply in_seq in Hd.
  apply entry_reduce_mean0; simpl; lia.
Qed.

Lemma last_of_length {A : Type} (l : list A) :
  length l <> 0 -> exists x, last_of l = Ok x.
Proof.
  intros Hl. unfold last_of.
  destruct (rev l) as [|x r] eqn:E.
  - apply (f_equal (@length A)) in E. rewrite length_rev in E.
    simpl in E. contradiction.
  - exists x. reflexivity.
Qed.

Lemma last_of_nil {A : Type} : last_of (@nil A) = Raise IndexError.
Proof. reflexivity. Qed.

(** With at least one layer, [_build_predict] returns the last mean and
    variance of the forward pass. *)
Lemma build_predict_ok (m : DGP_Base) (X : matrix T) (full_cov : bool)
      (S : nat) (g : Rng) :
  layers m <> [] ->
  exists Fs Fmeans Fvars g' Fmean Fvar,
    propagate m X full_cov S None g = ((Fs, Fmeans, Fvars), g')
    /\ fed full_cov (no_noise (layers m)) (tile_samples X S) g
           Fs Fmeans Fvars g'
    /\ last_of Fmeans = Ok Fmean /\ last_of Fvars = Ok Fvar
    /\ _build_predict m X full_cov S g = Ok ((Fmean, Fvar), g').
Proof.
  intros Hlayers.
  destruct (propagate_fed m X full_cov S None g)
    as (Fs & Fmeans & Fvars & g' & E & Hfed).
  simpl in Hfed. rewrite combine_repeat_None in Hfed.
  destruct (fed_length Hfed) as (_ & L2 & L3).
  unfold no_noise in L2, L3. rewrite length_map in L2, L3.
  assert (Hn : length (layers m) <> 0).
  { destruct (layers m); [contradiction Hlayers; reflexivity | discriminate]. }
  destruct (@last_of_length _ Fmeans) as (Fmean & EM); [lia|].
  destruct (@last_of_length _ Fvars) as (Fvar & EV); [lia|].
  exists Fs, Fmeans, Fvars, g', Fmean, Fvar.
  repeat split; try assumption.
  unfold _build_predict. rewrite E, EM. simpl. rewrite EV. reflexivity.
Qed.

End ObjectiveClaims.

(** ** Predictive density in exact arithmetic *)

Section DensityFacts.
Open Scope R_scope.

Lemma sum_list_acc (l : list R) (a : R) :
  fold_left Rplus l a = a + sum_list l.
Proof.
  unfold sum_list; simpl. revert a.
  induction l as [|x l IH]; intros a; simpl.
  - lra.
  - rewrite (IH (a + x)), (IH (0 + x)). lra.
Qed.

Lemma sum_list_cons (x : R) (l : list R) : sum_list (x :: l) = x + sum_list l.
Proof.
  unfold sum_list at 1; simpl. rewrite sum_list_acc. lra.
Qed.

Lemma sum_list_const (c : R) (n : nat) : sum_list (repeat c n) = INR n * c.
Proof.
  induction n as [|n IH].
  - unfold sum_list; simpl. lra.
  - change (repeat c (S n)) with (c :: repeat c n).
    rewrite sum_list_cons, IH, S_INR. lra.
Qed.

Lemma sum_list_scale (c : R) (l : list R) :
  sum_list (map (fun x => c * x) l) = c * sum_list l.
Proof.
  induction l as [|x l IH].
  - unfold sum_list; simpl. lra.
  - simpl. rewrite !sum_list_cons, IH. lra.
Qed.

Lemma sum_list_exp_pos (l : list R) :
  l <> [] -> 0 < sum_list (map exp l).
Proof.
  induction l as [|x l IH]; intros Hne; [contradiction Hne; reflexivity|].
  simpl. rewrite sum_list_cons.
  destruct l as [|y l'].
  - unfold sum_list; simpl. pose proof (exp_pos x). lra.
  - pose proof (exp_pos x). assert (0 < sum_list (map exp (y :: l'))).
    { apply IH. discriminate. }
    lra.
Qed.

Lemma max_list_const (c : R) (n : nat) : max_list (repeat c (S n)) = c.
Proof.
  simpl. induction n as [|n IH]; simpl; [reflexivity|].
  unfold Rmax at 2. destruct (Rle_dec c c); exact IH.
Qed.

Lemma map_const_seq {A : Type} (c : A) (a n : nat) :
  map (fun _ => c) (seq a n) = repeat c n.
Proof.
  revert a. induction n as [|n IH]; intros a; simpl; [reflexivity|].
  now rewrite IH.
Qed.

(** Taking a shift [c] out of the exponentials and adding it back after the
    logarithm leaves the log-sum-exp as it is. *)
Lemma logsumexp_shift (c : R) (l : list R) :
  l <> [] ->
  ln (sum_list (map (fun x => exp (x - c)) l)) + c = ln (sum_list (map exp l)).
Proof.
  intros Hne.
  assert (E : map (fun x => exp (x - c)) l
              = map (fun y => exp (- c) * y) (map exp l)).
  { rewrite map_map. apply map_ext. intros x.
    rewrite <- exp_plus. f_equal. lra. }
  rewrite E, sum_list_scale.
  rewrite ln_mult by (apply exp_pos || apply sum_list_exp_pos; exact Hne).
  rewrite ln_exp. lra.
Qed.

Lemma entry3_table (f : nat -> nat -> nat -> R) (S N D s n d : nat) :
  (s < S)%nat -> (n < N)%nat -> (d < D)%nat ->
  entry3 (Tensor3 N D
            (map (fun s => map (fun n => map (fun d => f s n d) (seq 0 D))
                               (seq 0 N)) (seq 0 S))) s n d
  = f s n d.
Proof.
  intros Hs Hn Hd. unfold entry3; simpl.
  rewrite (nth_map_seq
             (fun s => map (fun n => map (fun d => f s n d) (seq 0 D)) (seq 0 N)))
    by exact Hs.
  rewrite (nth_map_seq (fun n => map (fun d => f s n d) (seq 0 D))) by exact Hn.
  apply (nth_map_seq (f s n)). exact Hd.
Qed.

Lemma dimS_sub_scalar (t : tensor3 R) (c : R) : dimS (sub_scalar t c) = dimS t.
Proof. unfold dimS, sub_scalar; simpl. now rewrite length_map, length_seq. Qed.

Lemma entry3_sub_scalar (t : tensor3 R) (c : R) (s n d : nat) :
  (s < dimS t)%nat -> (n < dimN t)%nat -> (d < dimD t)%nat ->
  entry3 (sub_scalar t c) s n d = entry3 t s n d - c.
Proof.
  intros Hs Hn Hd. unfold sub_scalar.
  apply (entry3_table (fun s n d => entry3 t s n d - c)); assumption.
Qed.

(** The samples of [t - c] at one point. *)
Lemma samples_at_sub_scalar (t : tensor3 R) (c : R) (n d : nat) :
  (n < dimN t)%nat -> (d < dimD t)%nat ->
  map (fun s => entry3 (sub_scalar t c) s n d) (seq 0 (dimS (sub_scalar t c)))
  = map (fun x => x - c) (map (fun s => entry3 t s n d) (seq 0 (dimS t))).
Proof.
  intros Hn Hd. rewrite dimS_sub_scalar, map_map.
  apply map_ext_in. intros s Hs. apply in_seq in Hs.
  apply entry3_sub_scalar; (assumption || lia).
Qed.

Lemma entry_reduce_logsumexp0 (t : tensor3 R) (n d : nat) :
  (n < dimN t)%nat -> (d < dimD t)%nat ->
  entry (reduce_logsumexp0 t) n d
  = (let xs := map (fun s => entry3 t s n d) (seq 0 (dimS t)) in
     ln (sum_list (map (fun x => exp (x - max_list xs)) xs)) + max_list xs).
Proof.
  intros Hn Hd. unfold reduce_logsumexp0.
  apply (entry_table
           (fun n d =>
              let xs := map (fun s => entry3 t s n d) (seq 0 (dimS t)) in
              ln (sum_list (map (fun x => exp (x - max_list xs)) xs))
              + max_list xs)); assumption.
Qed.
End DensityFacts.

Section DensityClaims.
Context {Layer FVar Rng : Type} `{LayerOps R Layer FVar Rng}.
Context `{MinibatchSampler}.
Open Scope R_scope.

(** In exact arithmetic ([float_type] read as the real numbers)
    [predict_density] returns, at every point, the logarithm of the sum of
    the exponentials of the per-sample log-densities minus [log S]; where all
    [S] of them equal [v], that is [v]. *)
Theorem predict_density_is_logsumexp
        (m : @DGP_Base R Layer FVar) (Xnew Ynew : matrix R) (S : nat) (g : Rng) :
  (1 <= S)%nat -> layers m <> [] ->
  exists Fmean Fvar g' out,
    _build_predict m Xnew false S g = Ok ((Fmean, Fvar), g')
    /\ predict_density m Xnew Ynew S g = Ok (out, g')
    /\ let l := lik_predict_density (likelihood m) Fmean Fvar Ynew in
       nrows out = dimN l /\ ncols out = dimD l
       /\ (forall n d,
             (n < dimN l)%nat -> (d < dimD l)%nat -> (1 <= dimS l)%nat ->
             entry out n d
             = ln (sum_list (map (fun s => exp (entry3 l s n d - ln (INR S)))
                                 (seq 0 (dimS l)))))
       /\ (forall n d v,
             (n < dimN l)%nat -> (d < dimD l)%nat -> dimS l = S ->
             (forall s, (s < S)%nat -> entry3 l s n d = v) ->
             entry out n d = v).
Proof.
  intros HS Hlayers.
  destruct (build_predict_ok m Xnew false S g Hlayers)
    as (Fs & Fmeans & Fvars & g' & Fmean & Fvar & _ & _ & _ & _ & EP).
  set (l := lik_predict_density (likelihood m) Fmean Fvar Ynew).
  exists Fmean, Fvar, g', (reduce_logsumexp0 (sub_scalar l (ln (INR S)))).
  split; [exact EP|]. split.
  { unfold predict_density. rewrite EP. reflexivity. }
  cbv zeta. split; [|split; [|split]].
  - unfold nrows, reduce_logsumexp0; simpl. now rewrite length_map, length_seq.
  - reflexivity.
  - intros n d Hn Hd Hs. fold l in Hn, Hd, Hs |- *.
    rewrite entry_reduce_logsumexp0 by (simpl; assumption).
    cbv zeta. rewrite samples_at_sub_scalar by assumption.
    rewrite logsumexp_shift.
    + rewrite !map_map. reflexivity.
    + intros E. apply (f_equal (@length R)) in E.
      rewrite !length_map, length_seq in E. cbn [length] in E. lia.
  - intros n d v Hn Hd HSl Hall. fold l in Hn, Hd, HSl, Hall |- *.
    rewrite entry_reduce_logsumexp0 by (simpl; assumption).
    cbv zeta. rewrite samples_at_sub_scalar by assumption.
    rewrite HSl.
    assert (E : map (fun s => entry3 l s n d) (seq 0 S) = repeat v S).
    { rewrite <- (map_const_seq v 0 S). apply map_ext_in.
      intros s Hs. apply in_seq in Hs. apply Hall. lia. }
    rewrite E, map_repeat.
    destruct S as [|S']; [lia|].
    rewrite max_list_const, map_repeat, sum_list_const.
    replace (v - ln (INR (Datatypes.S S')) - (v - ln (INR (Datatypes.S S'))))
      with 0 by lra.
    rewrite exp_0, Rmult_1_r. lra.
Qed.
End DensityClaims.

(** ** Predictive density in [float_type] *)

Section ShiftedLogSumExp.
Context {T : Type} `{Scalar T} `{ScalarLog T}.
Context {Layer FVar Rng : Type} `{LayerOps T Layer FVar Rng}.
Context `{MinibatchSampler}.

Lemma entry3_generated (f : nat -> nat -> nat -> T) (S N D s n d : nat) :
  s < S -> n < N -> d < D ->
  entry3 (Tensor3 N D
            (map (fun s => map (fun n => map (fun d => f s n d) (seq 0 D))
                               (seq 0 N)) (seq 0 S))) s n d
  = f s n d.
Proof.
  intros Hs Hn Hd. unfold entry3; simpl.
  rewrite (nth_map_seq
             (fun s => map (fun n => map (fun d => f s n d) (seq 0 D)) (seq 0 N)))
    by exact Hs.
  rewrite (nth_map_seq (fun n => map (fun d => f s n d) (seq 0 D))) by exact Hn.
  apply (nth_map_seq (f s n)). exact Hd.
Qed.

Lemma sub_scalar_dimS (t : tensor3 T) (c : T) : dimS (sub_scalar t c) = dimS t.
Proof. unfold dimS, sub_scalar; simpl. now rewrite length_map, length_seq. Qed.

(** The samples of [t - c] at one point. *)
Lemma sub_scalar_samples (t : tensor3 T) (c : T) (n d : nat) :
  n < dimN t -> d < dimD t ->
  map (fun s => entry3 (sub_scalar t c) s n d) (seq 0 (dimS (sub_scalar t c)))
  = map (fun s => s_sub (entry3 t s n d) c) (seq 0 (dimS t)).
Proof.
  intros Hn Hd. rewrite sub_scalar_dimS.
  apply map_ext_in. intros s Hs. apply in_seq in Hs. unfold sub_scalar.
  apply (entry3_generated (fun s n d => s_sub (entry3 t s n d) c));
    (assumption || lia).
Qed.

Lemma reduce_logsumexp0_entry (t : tensor3 T) (n d : nat) :
  n < dimN t -> d < dimD t ->
  entry (reduce_logsumexp0 t) n d
  = (let xs := map (fun s => entry3 t s n d) (seq 0 (dimS t)) in
     s_add (s_log (sum_list (map (fun x => s_exp (s_sub x (max_list xs))) xs)))
           (max_list xs)).
Proof.
  intros Hn Hd. unfold reduce_logsumexp0.
  apply (entry_table
           (fun n d =>
              let xs := map (fun s => entry3 t s n d) (seq 0 (dimS t)) in
              s_add (s_log (sum_list
                              (map (fun x => s_exp (s_sub x (max_list xs))) xs)))
                    (max_list xs))); assumption.
Qed.

Lemma max_list_repeat (w : T) (n : nat) :
  s_max w w = w -> max_list (repeat w (S n)) = w.
Proof.
  intros Hw. simpl. induction n as [|n IH]; simpl; [reflexivity|].
  rewrite Hw. exact IH.
Qed.

Lemma map_seq_const {A : Type} (c : A) (a n : nat) :
  map (fun _ => c) (seq a n) = repeat c n.
Proof.
  revert a. induction n as [|n IH]; intros a; simpl; [reflexivity|].
  now rewrite IH.
Qed.

(** C6, as the code has it: [predict_density] returns, at every point, the
    log-sum-exp over the sample axis of [x_s = l_s - log S] in its shifted
    form: the logarithm of the sum of [exp (x_s - mx)], plus [mx], with [mx]
    the largest [x_s]; the exponential is taken of nothing else.  Where all
    [S] per-sample log-densities equal [v], and the steps of the reduction
    are exact, the result is [log S + (v - log S)] as [float_type] computes
    it: [v] itself exactly when this sum gives [v] back. *)
Theorem predict_density_shifted_logsumexp
        (m : DGP_Base) (Xnew Ynew : matrix T) (S : nat) (g : Rng) :
  1 <= S -> layers m <> [] ->
  exists Fmean Fvar g' out,
    _build_predict m Xnew false S g = Ok ((Fmean, Fvar), g')
    /\ predict_density m Xnew Ynew S g = Ok (out, g')
    /\ let l := lik_predict_density (likelihood m) Fmean Fvar Ynew in
       let c := s_log (s_of_nat S) in
       nrows out = dimN l /\ ncols out = dimD l
       /\ (forall n d,
             n < dimN l -> d < dimD l ->
             let xs := map (fun s => s_sub (entry3 l s n d) c)
                           (seq 0 (dimS l)) in
             entry out n d
             = s_add (s_log (sum_list
                               (map (fun x => s_exp (s_sub x (max_list xs))) xs)))
                     (max_list xs))
       /\ (forall n d v,
             n < dimN l -> d < dimD l -> dimS l = S ->
             (forall s, s < S -> entry3 l s n d = v) ->
             exact_steps S (s_sub v c) ->
             entry out n d = s_add c (s_sub v c)
             /\ (s_add c (s_sub v c) = v -> entry out n d = v)).
Proof.
  intros HS Hlayers.
  destruct (build_predict_ok m Xnew false S g Hlayers)
    as (Fs & Fmeans & Fvars & g' & Fmean & Fvar & _ & _ & _ & _ & EP).
  set (l := lik_predict_density (likelihood m) Fmean Fvar Ynew).
  set (c := s_log (s_of_nat S)).
  exists Fmean, Fvar, g', (reduce_logsumexp0 (sub_scalar l c)).
  split; [exact EP|]. split.
  { unfold predict_density. rewrite EP. reflexivity. }
  cbv zeta. fold l c.
  assert (Hentry : forall n d,
             n < dimN l -> d < dimD l ->
             entry (reduce_logsumexp0 (sub_scalar l c)) n d
             = s_add (s_log (sum_list
                               (map (fun x =>
                                       s_exp (s_sub x
                                                (max_list
                                                   (map (fun s => s_sub (entry3 l s n d) c)
                                                        (seq 0 (dimS l))))))
                                    (map (fun s => s_sub (entry3 l s n d) c)
                                         (seq 0 (dimS l))))))
                     (max_list (map (fun s => s_sub (entry3 l s n d) c)
                                    (seq 0 (dimS l))))).
  { intros n d Hn Hd.
    rewrite reduce_logsumexp0_entry by (simpl; assumption).
    cbv zeta. rewrite sub_scalar_samples by assumption. reflexivity. }
  split; [|split; [|split]].
  - unfold nrows, reduce_logsumexp0; simpl. now rewrite length_map, length_seq.
  - reflexivity.
  - exact Hentry.
  - intros n d v Hn Hd HSl Hall (Hmax & Hsub & Hexp & Hsum).
    assert (Eout : entry (reduce_logsumexp0 (sub_scalar l c)) n d
                   = s_add c (s_sub v c)).
    { rewrite Hentry by assumption. rewrite HSl.
      assert (E : map (fun s => s_sub (entry3 l s n d) c) (seq 0 S)
                  = repeat (s_sub v c) S).
      { rewrite <- (map_seq_const (s_sub v c) 0 S). apply map_ext_in.
        intros s Hs. apply in_seq in Hs. rewrite Hall by lia. reflexivity. }
      rewrite E. destruct S as [|S']; [lia|].
      rewrite max_list_repeat by exact Hmax.
      rewrite map_repeat, Hsub, Hexp, Hsum. reflexivity. }
    split; [exact Eout|]. intros Hback. now rewrite Eout.
Qed.
End ShiftedLogSumExp.

(** ** The definitions on small inputs *)

Example tile_two_copies :
  tile_samples Toy.X2 2 = Tensor3 2 2 [[[1; 2]; [3; 4]]; [[1; 2]; [3; 4]]]%Z.
Proof. reflexivity. Qed.

Example mean_over_two_samples :
  reduce_mean0 (Tensor3 1 2 [[[2; 4]]; [[6; 8]]]%Z) = Matrix 2 [[4; 6]]%Z.
Proof. reflexivity. Qed.

Example mean_keeps_shape_without_rows :
  reduce_mean0 (Tensor3 0 2 [[]; []] : tensor3 Z) = Matrix 2 [].
Proof. reflexivity. Qed.

Example dot_two_by_three :
  dot Toy.Z3 (Matrix 2 [[1; 0]; [0; 1]; [0; 0]]%Z)
  = Ok (Matrix 2 [[1; 2]; [4; 5]]%Z).
Proof. reflexivity. Qed.

Example dot_shapes_not_aligned :
  dot Toy.Z1 (Matrix 2 [[1; 0]; [0; 1]; [0; 0]]%Z) = Raise ValueError.
Proof. reflexivity. Qed.

Example stack_stepping_down :
  DGP_layers Toy.toy_svd Toy.X3 Toy.Y2 Toy.Z3 [Toy.k 3; Toy.k 2] None
             (Zero : mean_function unit)
  = Ok [SVGP (Toy.k 3) Toy.Z3 2
             (Linear (Matrix 2 [[1; 0]; [0; 1]; [0; 0]]%Z) false);
        SVGP (Toy.k 2) (Matrix 2 [[1; 2]; [4; 5]]%Z) 1 Zero].
Proof. reflexivity. Qed.

Example stack_same_dimension :
  DGP_layers Toy.toy_svd Toy.X3 Toy.Y2 Toy.Z3 [Toy.k 3; Toy.k 3] (Some 4)
             (Zero : mean_function unit)
  = Ok [SVGP (Toy.k 3) Toy.Z3 3 Identity; SVGP (Toy.k 3) Toy.Z3 4 Zero].
Proof. reflexivity. Qed.

Example objective_of_model2 :
  _build_likelihood Toy.model2 0 0 = Ok (((11 + 12 + 13 + 14) * 1 - 30)%Z, 2).
Proof. reflexivity. Qed.

Example no_layer_no_prediction :
  _build_predict (DGP_Base_init Toy.X2 Toy.Y2 Toy.toy_likelihood [] None 1 None)
                 Toy.X2 false 1 0
  = Raise IndexError.
Proof. reflexivity. Qed.

Lemma Z_division_by_self : division_by_self (T:=Z).
Proof.
  split.
  - intros x Hx. apply Z.div_same. exact Hx.
  - intros n Hn. simpl. lia.
Qed.


Lemma propagate_one_triple_per_layer_witness :
  1 <= 2
  /\ Forall keeps_sample_axis (layers Toy.model2)
  /\ exists Fs Fmeans Fvars g',
      propagate Toy.model2 Toy.X2 false 2 None 0 = ((Fs, Fmeans, Fvars), g')
      /\ length Fs = 2 /\ length Fmeans = 2 /\ length Fvars = 2
      /\ Forall (fun F => dimS F = 2) Fs.
Proof.
  assert (HS : 1 <= 2) by lia.
  assert (Hk : Forall keeps_sample_axis (layers Toy.model2)).
  { repeat constructor; intros F [z|] full_cov g; unfold dimS; simpl;
      apply length_map. }
  split; [exact HS|]. split; [exact Hk|].
  destruct (propagate_one_triple_per_layer Toy.model2 Toy.X2 false 0 HS)
    as (Fs & Fmeans & Fvars & g' & E & L1 & L2 & L3 & _ & _ & _ & Hax).
  exists Fs, Fmeans, Fvars, g'.
  split; [exact E|]. split; [exact L1|]. split; [exact L2|].
  split; [exact L3|]. exact (Hax Hk).
Defined.

Lemma toy_svd_orthonormal : orthonormal_rows (Toy.toy_svd Toy.X3).
Proof.
  intros j k Hj Hk. change (nrows (Toy.toy_svd Toy.X3)) with 3 in Hj, Hk.
  destruct j as [|[|[|j]]]; destruct k as [|[|[|k]]];
    try reflexivity; lia.
Qed.


Lemma layer_built_before_projection_witness :
  inner_layer Toy.toy_svd (Toy.X1, Toy.Z1, []) (Toy.k 1, Toy.k 2)
  = Ok (Matrix 2 [[1; 0]; [2; 0]]%Z, Matrix 2 [[7; 0]]%Z,
        [SVGP (Toy.k 1) Toy.Z1 2
              (Linear (custom_mf:=unit) (Matrix 2 [[1; 0]]%Z) false)])
  /\ exists mf,
      [SVGP (Toy.k 1) Toy.Z1 2
            (Linear (custom_mf:=unit) (Matrix 2 [[1; 0]]%Z) false)]
      = [] ++ [SVGP (Toy.k 1) Toy.Z1 2 mf].
Proof.
  assert (E : inner_layer Toy.toy_svd (Toy.X1, Toy.Z1, []) (Toy.k 1, Toy.k 2)
              = Ok (Matrix 2 [[1; 0]; [2; 0]]%Z, Matrix 2 [[7; 0]]%Z,
                    [SVGP (Toy.k 1) Toy.Z1 2
                          (Linear (custom_mf:=unit) (Matrix 2 [[1; 0]]%Z) false)]))
    by reflexivity.
  split; [exact E|].
  exact (proj1 (layer_built_before_projection Toy.toy_svd Toy.X1 Toy.Z1 []
                  (Toy.k 1) (Toy.k 2) E)).
Defined.

Lemma running_matrices_after_transition_witness :
  ncols Toy.X3 = 3 /\ ncols Toy.Z3 = 3
  /\ ncols (Toy.toy_svd Toy.X3) = ncols Toy.X3
  /\ (2 < 3 -> 2 <= nrows (Toy.toy_svd Toy.X3))
  /\ exists X' Z' ls',
      inner_layer (custom_mf:=unit) Toy.toy_svd (Toy.X3, Toy.Z3, [])
                  (Toy.k 3, Toy.k 2)
      = Ok (X', Z', ls')
      /\ ncols Z' = 2 /\ ncols X' = 2.
Proof.
  assert (Hrank : 2 < 3 -> 2 <= nrows (Toy.toy_svd Toy.X3))
    by (intros _; change (nrows (Toy.toy_svd Toy.X3)) with 3; lia).
  repeat (split; [reflexivity|]). split; [exact Hrank|].
  destruct (running_matrices_after_transition (custom_mf:=unit) Toy.toy_svd
              Toy.X3 Toy.Z3 [] (Toy.k 3) (Toy.k 2)
              eq_refl eq_refl eq_refl Hrank)
    as (X' & Z' & ls' & E & _ & Hch).
  destruct Hch as (W & _ & _ & _ & _ & _ & HZ & _ & HX & _); [simpl; lia|].
  exists X', Z', ls'. auto.
Defined.

Lemma predict_density_shifted_logsumexp_witness :
  1 <= 2 /\ layers Binary64.model_tenth <> []
  /\ exact_steps 2 (s_sub Binary64.tenth (s_log (s_of_nat 2)))
  /\ exists out g',
      predict_density Binary64.model_tenth Binary64.X_tenth Binary64.X_tenth 2 0
      = Ok (out, g')
      /\ entry out 0 0
         = s_add (s_log (s_of_nat 2))
                 (s_sub Binary64.tenth (s_log (s_of_nat 2))).
Proof.
  assert (HS : 1 <= 2) by lia.
  assert (Hne : layers Binary64.model_tenth <> []) by discriminate.
  assert (Hex : exact_steps 2 (s_sub Binary64.tenth (s_log (s_of_nat 2))))
    by (repeat split; reflexivity).
  split; [exact HS|]. split; [exact Hne|]. split; [exact Hex|].
  destruct (predict_density_shifted_logsumexp Binary64.model_tenth
              Binary64.X_tenth Binary64.X_tenth 0 HS Hne)
    as (Fmean & Fvar & g' & out & EP & ED & _ & _ & _ & Hall).
  exists out, g'. split; [exact ED|].
  assert (EP' : _build_predict Binary64.model_tenth Binary64.X_tenth false 2 0
                = Ok ((Tensor3 1 1 [[[Binary64.tenth]]; [[Binary64.tenth]]],
                       Tensor3 1 1 [[[Binary64.tenth]]; [[Binary64.tenth]]]), 0))
    by reflexivity.
  rewrite EP' in EP. injection EP as <- <- <-.
  apply (Hall 0 0 Binary64.tenth); try (simpl; lia); try reflexivity.
  - intros [|[|s]] Hs; try reflexivity; lia.
  - exact Hex.
Defined.

(** C6 fails as stated: in binary64, with two samples whose log-density is
    the double [0.1] at the one query point, [predict_density] returns
    [0x1.9999999999998p-4] (0.09999999999999998), not that double. *)
Lemma predict_density_rounds :
  _build_predict Binary64.model_tenth Binary64.X_tenth false 2 0
  = Ok ((Tensor3 1 1 [[[Binary64.tenth]]; [[Binary64.tenth]]],
         Tensor3 1 1 [[[Binary64.tenth]]; [[Binary64.tenth]]]), 0)
  /\ predict_density Binary64.model_tenth Binary64.X_tenth Binary64.X_tenth 2 0
     = Ok (Matrix 1 [[0x1.9999999999998p-4%float]], 0)
  /\ 0x1.9999999999998p-4%float <> Binary64.tenth.
Proof.
  split; [reflexivity|]. split; [reflexivity|].
  intros E.
  assert (Hneq : PrimFloat.eqb 0x1.9999999999998p-4%float Binary64.tenth = false)
    by reflexivity.
  rewrite E in Hneq. discriminate Hneq.
Qed.

Lemma predict_density_is_logsumexp_witness :
  1 <= 3 /\ layers Toy.modelR <> []
  /\ exists out g',
      predict_density Toy.modelR Toy.XR Toy.XR 3 0 = Ok (out, g')
      /\ entry out 0 0 = 2%R.
Proof.
  assert (HS : 1 <= 3) by lia.
  assert (Hne : layers Toy.modelR <> []) by discriminate.
  split; [exact HS|]. split; [exact Hne|].
  destruct (predict_density_is_logsumexp Toy.modelR Toy.XR Toy.XR 0 HS Hne)
    as (Fmean & Fvar & g' & out & EP & ED & _ & _ & _ & Hall).
  exists out, g'. split; [exact ED|].
  assert (EP' : _build_predict Toy.modelR Toy.XR false 3 0
                = Ok ((Tensor3 1 1 [[[2%R]]; [[2%R]]; [[2%R]]],
                       Tensor3 1 1 [[[2%R]]; [[2%R]]; [[2%R]]]), 0))
    by reflexivity.
  rewrite EP' in EP. injection EP as <- <- <-.
  apply Hall; simpl; try lia; try reflexivity.
  intros [|[|[|s]]] Hs; try reflexivity; lia.
Defined.

Lemma minibatch_rows_correspond_witness :
  nrows Toy.X2 = nrows Toy.Y2
  /\ nrows (read (model_X (DGP_Base_init Toy.X2 Toy.Y2 Toy.toy_likelihood
                                         [10; 20]%Z (Some 1) 2 None)) 1)
     = nrows (read (model_Y (DGP_Base_init Toy.X2 Toy.Y2 Toy.toy_likelihood
                                           [10; 20]%Z (Some 1) 2 None)) 1).
Proof.
  split; [reflexivity|].
  exact (proj1 (proj2 (proj2
           (minibatch_rows_correspond Toy.X2 Toy.Y2 Toy.toy_likelihood
              [10; 20]%Z 0 2 None 1 eq_refl)))).
Defined.

Lemma constructor_does_not_validate_witness :
  nrows (Matrix 1 ([] : list (list Z))) = 0
  /\ DGP_layers Toy.toy_svd Toy.X1 Toy.Y2 (Matrix 1 []) [Toy.k 1] None
                (Zero : mean_function unit)
     = Ok [SVGP (Toy.k 1) (Matrix 1 []) 1 Zero].
Proof.
  split; [reflexivity|].
  exact (proj2 (constructor_does_not_validate Toy.toy_svd Toy.X1 Toy.Y2
                  (Matrix 1 []) None Zero (Toy.k 1)) eq_refl).
Defined.

Lemma toy_layers_use_noise :
  Forall (fun layer => uses_given_noise layer /\ draws_then_uses layer)
         (layers Toy.model2).
Proof.
  repeat constructor; intros F; intros; reflexivity.
Qed.

Lemma propagate_reproducible_witness :
  Forall (fun layer => uses_given_noise layer /\ draws_then_uses layer)
         (layers Toy.model2)
  /\ fst (propagate Toy.model2 Toy.X2 false 2
                    (Some [Some (Tensor3 1 1 [[[3%Z]]]);
                           Some (Tensor3 1 1 [[[4%Z]]])]) 0)
     = fst (propagate Toy.model2 Toy.X2 false 2
                      (Some [Some (Tensor3 1 1 [[[3%Z]]]);
                             Some (Tensor3 1 1 [[[4%Z]]])]) 5)
  /\ fst (propagate Toy.model2 Toy.X2 false 2 None 3)
     = fst (propagate Toy.model2 Toy.X2 false 2
                      (Some [Some (Tensor3 1 1 [[[3%Z]]]);
                             Some (Tensor3 1 1 [[[4%Z]]])]) 0)
  /\ fst (propagate Toy.model2 Toy.X2 false 2 None 0)
     <> fst (propagate Toy.model2 Toy.X2 false 2 None 5).
Proof.
  split; [exact toy_layers_use_noise|].
  destruct (propagate_reproducible Toy.model2 Toy.X2 false 2
              toy_layers_use_noise) as (Hgiven & Hdrawn & _).
  split; [|split].
  - apply Hgiven; [discriminate | repeat constructor; discriminate].
  - exact (Hdrawn 3 0).
  - discriminate.
Defined.

Lemma propagate_short_zs_witness :
  [@None (tensor3 Z)] <> [] /\ 1 < length (layers Toy.model2)
  /\ exists Fs Fmeans Fvars g',
      propagate Toy.model2 Toy.X2 false 2 (Some [None]) 0
      = ((Fs, Fmeans, Fvars), g')
      /\ length Fs = 1 /\ length Fmeans = 1 /\ length Fvars = 1.
Proof.
  assert (Hne : [@None (tensor3 Z)] <> []) by discriminate.
  assert (Hlt : 1 < length (layers Toy.model2)) by (simpl; lia).
  split; [exact Hne|]. split; [exact Hlt|].
  destruct (proj1 (propagate_short_zs Toy.model2 Toy.X2 false 2 [None] 0)
                  Hne Hlt)
    as (Fs & Fmeans & Fvars & g' & E & L1 & L2 & L3 & _).
  exists Fs, Fmeans, Fvars, g'. auto.
Defined.

(** * Further properties of the code *)

(** ** The whole stack *)

Section StackFacts.
Context {T : Type} `{Scalar T}.
Variables kernel_body custom_mf : Type.
Variable svd_Vh : matrix T -> matrix T.

(** The pairs [zip(kernels[:-1], kernels[1:])], one kernel at a time. *)
Lemma adjacent_cons (k0 k1 : kernel kernel_body) (rest : list (kernel kernel_body)) :
  combine (removelast (k0 :: k1 :: rest)) (tl (k0 :: k1 :: rest))
  = (k0, k1) :: combine (removelast (k1 :: rest)) (tl (k1 :: rest)).
Proof. reflexivity. Qed.

Lemma last_kernel_cons (k0 : kernel kernel_body) (rest : list (kernel kernel_body)) :
  last_kernel (k0 :: rest) = Ok (last rest k0).
Proof.
  unfold last_kernel.
  destruct (rev (k0 :: rest)) as [|x r] eqn:E.
  - apply (f_equal (@length _)) in E. rewrite length_rev in E. discriminate.
  - f_equal. apply (f_equal (@rev _)) in E. rewrite rev_involutive in E.
    simpl in E.
    assert (E2 : last (k0 :: rest) k0 = x) by (rewrite E; apply last_last).
    rewrite <- E2. destruct rest; reflexivity.
Qed.

(** What a successful run of the loop has appended. *)
Lemma inner_layers_appended (pairs : list (kernel kernel_body * kernel kernel_body)) :
  forall (X Z X' Z' : matrix T) (ls ls' : list (SVGP_Layer kernel_body custom_mf)),
    inner_layers svd_Vh (X, Z, ls) pairs = Ok (X', Z', ls') ->
    exists new,
      ls' = ls ++ new
      /\ map (@kern _ _ _) new = map fst pairs
      /\ map (@num_outputs _ _ _) new = map (fun p => input_dim (snd p)) pairs
      /\ Forall (fun l => fixed_mean_function (layer_mf l)
                          /\ (layer_mf l = Identity
                              <-> input_dim (kern l) = num_outputs l)) new.
Proof.
  induction pairs as [|[kin kout] rest IH]; intros X Z X' Z' ls ls' Hrun.
  - simpl in Hrun. injection Hrun as <- <- <-. exists []. rewrite app_nil_r.
    repeat split; constructor.
  - cbn [inner_layers] in Hrun.
    destruct (inner_layer svd_Vh (X, Z, ls) (kin, kout)) as [[[X1 Z1] ls1]|e] eqn:E;
      simpl in Hrun; [|discriminate].
    destruct (IH _ _ _ _ _ _ Hrun) as (new & -> & Hk & Hn & Hmf).
    destruct (inner_layer_inv _ _ _ _ _ _ E)
      as [(Eq & _ & _ & ->) | (Hne & W & _ & _ & _ & ->)].
    + exists (SVGP kin Z (input_dim kout) Identity :: new).
      rewrite <- app_assoc. simpl. rewrite Hk, Hn.
      repeat split; try reflexivity.
      constructor; [|exact Hmf]. simpl. split; [left; reflexivity|].
      split; intros _; [exact Eq | reflexivity].
    + exists (SVGP kin Z (input_dim kout) (Linear W false) :: new).
      rewrite <- app_assoc. simpl. rewrite Hk, Hn.
      repeat split; try reflexivity.
      constructor; [|exact Hmf]. simpl. split; [right; exists W; reflexivity|].
      split; [discriminate | intros Eq; contradiction].
Qed.

Lemma map_fst_adjacent (kernels : list (kernel kernel_body)) :
  map fst (combine (removelast kernels) (tl kernels)) = removelast kernels
  /\ map snd (combine (removelast kernels) (tl kernels)) = tl kernels.
Proof.
  destruct kernels as [|k0 rest]; [split; reflexivity|].
  revert k0. induction rest as [|k1 rest IH]; intros k0; [split; reflexivity|].
  rewrite adjacent_cons. cbn [map fst snd].
  destruct (IH k1) as (E1 & E2). rewrite E1, E2. split; reflexivity.
Qed.

(** A successful [DGP_layers], taken apart. *)
Lemma DGP_layers_inv (X Y Z : matrix T) (kernels : list (kernel kernel_body))
      (num_outputs_arg : option nat) (mean_function_arg : mean_function custom_mf)
      (ls : list (SVGP_Layer kernel_body custom_mf)) :
  DGP_layers svd_Vh X Y Z kernels num_outputs_arg mean_function_arg = Ok ls ->
  exists X' Z' inner k,
    inner_layers svd_Vh (X, Z, []) (combine (removelast kernels) (tl kernels))
    = Ok (X', Z', inner)
    /\ last_kernel kernels = Ok k
    /\ ls = inner ++ [SVGP k Z' (or_default num_outputs_arg (ncols Y))
                           mean_function_arg].
Proof.
  unfold DGP_layers. intros Hrun.
  destruct (inner_layers svd_Vh (X, Z, [])
              (combine (removelast kernels) (tl kernels)))
    as [[[X' Z'] inner]|e]; simpl in Hrun; [|discriminate].
  destruct (last_kernel kernels) as [k|e]; simpl in Hrun; [|discriminate].
  injection Hrun as <-. exists X', Z', inner, k. auto.
Qed.
End StackFacts.

Section StackProperties.
Context {T : Type} `{Scalar T}.
Variables kernel_body custom_mf : Type.
Variable svd_Vh : matrix T -> matrix T.

(** X1: a stack that is built has one layer per kernel, layer [i] holding
    kernel [i]; the output dimension of every layer but the last is the
    input dimension of the next kernel, and that of the last is
    [num_outputs], or the width of [Y] when [num_outputs] is missing or
    zero. *)
Theorem stack_follows_kernels
        (X Y Z : matrix T) (kernels : list (kernel kernel_body))
        (num_outputs_arg : option nat) (mean_function_arg : mean_function custom_mf)
        (ls : list (SVGP_Layer kernel_body custom_mf)) :
  DGP_layers svd_Vh X Y Z kernels num_outputs_arg mean_function_arg = Ok ls ->
  length ls = length kernels
  /\ map (@kern _ _ _) ls = kernels
  /\ map (@num_outputs _ _ _) ls
     = map (@input_dim _) (tl kernels)
       ++ [or_default num_outputs_arg (ncols Y)].
Proof.
  intros Hrun.
  apply DGP_layers_inv in Hrun.
  destruct Hrun as (X' & Z' & inner & k & Hloop & Hlast & ->).
  apply inner_layers_appended in Hloop.
  destruct Hloop as (new & Enew & Hk & Hn & _).
  simpl in Enew. subst inner.
  destruct (map_fst_adjacent kernels) as (E1 & E2).
  assert (Hkern : map (@kern _ _ _)
                    (new ++ [SVGP k Z' (or_default num_outputs_arg (ncols Y))
                                  mean_function_arg])
                  = kernels).
  { rewrite map_app, Hk, E1. simpl.
    destruct kernels as [|k0 rest]; [discriminate|].
    rewrite last_kernel_cons in Hlast. injection Hlast as <-.
    symmetry.
    etransitivity; [apply (@app_removelast_last _ (k0 :: rest) k0); discriminate|].
    do 2 f_equal. destruct rest; reflexivity. }
  split; [|split].
  - rewrite <- (length_map (@kern _ _ _)). now rewrite Hkern.
  - exact Hkern.
  - rewrite map_app, Hn. simpl. f_equal.
    replace (map (@input_dim _) (tl kernels))
      with (map (@input_dim _)
                (map snd (combine (removelast kernels) (tl kernels))))
      by now rewrite E2.
    now rewrite map_map.
Qed.

(** X2: in a stack that is built, the last layer carries the caller's mean
    function, whatever the dimensions are; every layer before it carries
    [Identity] or a [Linear] that is not trainable, and it carries [Identity]
    exactly when its kernel's input dimension equals its output dimension. *)
Theorem stack_mean_functions
        (X Y Z : matrix T) (kernels : list (kernel kernel_body))
        (num_outputs_arg : option nat) (mean_function_arg : mean_function custom_mf)
        (ls : list (SVGP_Layer kernel_body custom_mf)) :
  DGP_layers svd_Vh X Y Z kernels num_outputs_arg mean_function_arg = Ok ls ->
  exists inner final,
    ls = inner ++ [final]
    /\ layer_mf final = mean_function_arg
    /\ Forall (fun l => fixed_mean_function (layer_mf l)
                        /\ (layer_mf l = Identity
                            <-> input_dim (kern l) = num_outputs l)) inner.
Proof.
  intros Hrun.
  apply DGP_layers_inv in Hrun.
  destruct Hrun as (X' & Z' & inner & k & Hloop & Hlast & ->).
  apply inner_layers_appended in Hloop.
  destruct Hloop as (new & Enew & _ & _ & Hmf).
  simpl in Enew. subst inner.
  exists new, (SVGP k Z' (or_default num_outputs_arg (ncols Y)) mean_function_arg).
  split; [reflexivity|]. split; [reflexivity | exact Hmf].
Qed.

(** X3: when every kernel has the same input dimension, construction
    cannot fail and looks at neither the data nor the width of [Z]: every
    layer gets [Z] itself, the layers before the last get [Identity]. *)
Theorem stack_of_equal_dimensions
        (X Y Z : matrix T) (k0 : kernel kernel_body)
        (rest : list (kernel kernel_body))
        (num_outputs_arg : option nat) (mean_function_arg : mean_function custom_mf) :
  Forall (fun k => input_dim k = input_dim k0) rest ->
  DGP_layers svd_Vh X Y Z (k0 :: rest) num_outputs_arg mean_function_arg
  = Ok (map (fun k => SVGP k Z (input_dim k0) Identity)
            (removelast (k0 :: rest))
        ++ [SVGP (last rest k0) Z (or_default num_outputs_arg (ncols Y))
                 mean_function_arg]).
Proof.
  intros Hall. unfold DGP_layers. rewrite last_kernel_cons.
  assert (Hloop : forall (ks : list (kernel kernel_body)) (k : kernel kernel_body)
                         (acc : list (SVGP_Layer kernel_body custom_mf)),
             input_dim k = input_dim k0 ->
             Forall (fun k' => input_dim k' = input_dim k0) ks ->
             inner_layers svd_Vh (X, Z, acc)
                          (combine (removelast (k :: ks)) (tl (k :: ks)))
             = Ok (X, Z, acc ++ map (fun k' => SVGP k' Z (input_dim k0) Identity)
                                    (removelast (k :: ks)))).
  { induction ks as [|k1 ks IH]; intros k acc Hk Hks.
    - simpl. now rewrite app_nil_r.
    - inversion Hks as [|? ? Hk1 Hks']; subst.
      rewrite adjacent_cons. cbn [inner_layers].
      rewrite inner_layer_same by congruence. cbn [rbind].
      rewrite (IH k1 _ Hk1 Hks'), <- app_assoc, Hk1.
      reflexivity. }
  rewrite (Hloop rest k0 [] eq_refl Hall). reflexivity.
Qed.

(** X4: when the input dimensions never decrease along the kernel list, the
    singular value decomposition is never consulted: the outcome is the same
    whatever it would return. *)
Theorem svd_unused_without_step_down
        (svd_other : matrix T -> matrix T)
        (X Y Z : matrix T) (kernels : list (kernel kernel_body))
        (num_outputs_arg : option nat) (mean_function_arg : mean_function custom_mf) :
  never_steps_down kernels ->
  DGP_layers svd_Vh X Y Z kernels num_outputs_arg mean_function_arg
  = DGP_layers svd_other X Y Z kernels num_outputs_arg mean_function_arg.
Proof.
  intros Hup. unfold DGP_layers. f_equal.
  assert (Hstep : forall (st : builder_state kernel_body custom_mf)
                         (kin kout : kernel kernel_body),
             input_dim kin <= input_dim kout ->
             inner_layer svd_Vh st (kin, kout) = inner_layer svd_other st (kin, kout)).
  { intros [[X0 Z0] ls0] kin kout Hle. unfold inner_layer.
    destruct (input_dim kin =? input_dim kout); [reflexivity|].
    now rewrite !transition_W_up by exact Hle. }
  destruct kernels as [|k0 rest]; [reflexivity|].
  generalize (X, Z, @nil (SVGP_Layer (T:=T) kernel_body custom_mf)).
  revert k0 Hup. induction rest as [|k1 rest IH]; intros k0 Hup st.
  - reflexivity.
  - destruct Hup as (Hle & Hup). rewrite adjacent_cons. cbn [inner_layers].
    rewrite (Hstep st k0 k1 Hle).
    destruct (inner_layer svd_other st (k0, k1)) as [st'|e]; [|reflexivity].
    cbn [rbind]. apply IH. exact Hup.
Qed.
End StackProperties.

Section StackShapes.
Context {T : Type} `{Scalar T}.
Variables kernel_body custom_mf FVar : Type.
Variable svd_Vh : matrix T -> matrix T.

Lemma last_cons {A : Type} (l : list A) (a d : A) :
  last (a :: l) d = last l a.
Proof.
  revert a d. induction l as [|b l IH]; intros a d; [reflexivity|].
  change (last (a :: b :: l) d) with (last (b :: l) d).
  rewrite (IH b d), (IH b a). reflexivity.
Qed.

Lemma dot_raise (a b : matrix T) :
  ncols a <> nrows b -> dot a b = Raise ValueError.
Proof.
  intros Hne. unfold dot. apply Nat.eqb_neq in Hne. now rewrite Hne.
Qed.

Lemma ncols_transition_W (X W : matrix T) (dim_in dim_out : nat) :
  transition_W svd_Vh X dim_in dim_out = Ok W ->
  (dim_out < dim_in -> dim_out <= nrows (svd_Vh X)) ->
  ncols W = dim_out.
Proof.
  intros HW Hrank.
  destruct (Nat.lt_ge_cases dim_out dim_in) as [Hlt | Hge].
  - rewrite transition_W_down in HW by exact Hlt. injection HW as <-.
    destruct (pca_projection (svd_Vh X) dim_out) as (_ & Hc & _).
    specialize (Hrank Hlt). lia.
  - rewrite transition_W_up in HW by exact Hge. injection HW as <-.
    simpl. lia.
Qed.

(** One pass through the loop body keeps the running matrices in step with
    the kernels. *)
Lemma inner_layer_shapes (X Z : matrix T)
      (ls : list (SVGP_Layer kernel_body custom_mf))
      (kin kout : kernel kernel_body) :
  ncols X = input_dim kin -> ncols Z = input_dim kin ->
  ncols (svd_Vh X) = ncols X ->
  (input_dim kout < input_dim kin -> input_dim kout <= nrows (svd_Vh X)) ->
  exists X' Z' mf,
    inner_layer svd_Vh (X, Z, ls) (kin, kout)
    = Ok (X', Z', ls ++ [SVGP kin Z (input_dim kout) mf])
    /\ ncols X' = input_dim kout /\ ncols Z' = input_dim kout
    /\ nrows X' = nrows X /\ nrows Z' = nrows Z.
Proof.
  intros HX HZ HV Hrank.
  destruct (Nat.eq_dec (input_dim kin) (input_dim kout)) as [Heq | Hne].
  - exists X, Z, Identity. rewrite inner_layer_same by exact Heq.
    repeat split; congruence.
  - destruct (inner_layer_ok svd_Vh X Z ls kin kout HX HZ HV Hne)
      as (W & X' & Z' & HW & HrW & EZ & EX & Estep).
    assert (HcW : ncols W = input_dim kout)
      by (eapply ncols_transition_W; eassumption).
    destruct (dot_inv _ _ EZ) as (_ & Zr & Zc).
    destruct (dot_inv _ _ EX) as (_ & Xr & Xc).
    exists X', Z', (Linear W false). repeat split; congruence.
Qed.

(** X5: with a decomposition of the usual shape, data and inducing
    locations as wide as the first kernel's input dimension, and at least as
    many data rows as any dimension the stack steps down to, construction
    succeeds, and every layer holds inducing locations as wide as its own
    kernel's input dimension, with the row count of [Z]. *)
Theorem stack_is_well_posed
        (X Y Z : matrix T) (k0 : kernel kernel_body)
        (rest : list (kernel kernel_body))
        (num_outputs_arg : option nat) (mean_function_arg : mean_function custom_mf) :
  svd_shape svd_Vh ->
  ncols X = input_dim k0 -> ncols Z = input_dim k0 ->
  enough_rows (nrows X) (k0 :: rest) ->
  exists ls,
    DGP_layers svd_Vh X Y Z (k0 :: rest) num_outputs_arg mean_function_arg
    = Ok ls
    /\ Forall (fun l => ncols (layer_Z l) = input_dim (kern l)
                        /\ nrows (layer_Z l) = nrows Z) ls.
Proof.
  intros Hsvd HX HZ Hrows.
  assert (Hloop : forall (ks : list (kernel kernel_body)) (k : kernel kernel_body)
                         (X1 Z1 : matrix T)
                         (acc : list (SVGP_Layer kernel_body custom_mf)),
             ncols X1 = input_dim k -> ncols Z1 = input_dim k ->
             nrows X1 = nrows X -> nrows Z1 = nrows Z ->
             enough_rows (nrows X) (k :: ks) ->
             exists X' Z' new,
               inner_layers svd_Vh (X1, Z1, acc)
                            (combine (removelast (k :: ks)) (tl (k :: ks)))
               = Ok (X', Z', acc ++ new)
               /\ ncols Z' = input_dim (last ks k) /\ nrows Z' = nrows Z
               /\ Forall (fun l => ncols (layer_Z l) = input_dim (kern l)
                                   /\ nrows (layer_Z l) = nrows Z) new).
  { induction ks as [|k1 ks IH]; intros k X1 Z1 acc HX1 HZ1 HrX HrZ Hen.
    - exists X1, Z1, []. simpl. rewrite app_nil_r. auto.
    - destruct Hen as (Hdrop & Hen).
      destruct (Hsvd X1) as (HV & Hmin).
      destruct (inner_layer_shapes X1 Z1 acc k k1 HX1 HZ1 HV)
        as (X2 & Z2 & mf & Estep & HX2 & HZ2 & HrX2 & HrZ2).
      { intros Hlt. specialize (Hdrop Hlt). lia. }
      destruct (IH k1 X2 Z2 (acc ++ [SVGP k Z1 (input_dim k1) mf]))
        as (X' & Z' & new & Erun & HcZ & HrZ' & Hall); try congruence.
      exists X', Z', (SVGP k Z1 (input_dim k1) mf :: new).
      rewrite adjacent_cons. cbn [inner_layers]. rewrite Estep. cbn [rbind].
      rewrite Erun, <- app_assoc.
      split; [reflexivity|]. split; [rewrite last_cons; exact HcZ|].
      split; [exact HrZ'|].
      constructor; [simpl; auto | exact Hall]. }
  destruct (Hloop rest k0 X Z [] HX HZ eq_refl eq_refl Hrows)
    as (X' & Z' & new & Erun & HcZ & HrZ & Hall).
  unfold DGP_layers. rewrite Erun. cbn [rbind]. rewrite last_kernel_cons.
  eexists. split; [reflexivity|].
  simpl. apply Forall_app. split; [exact Hall|].
  constructor; [simpl; auto | constructor].
Qed.

(** Stepping up with running matrices that are not [d_in] wide. *)
Lemma inner_layer_up_raise (X Z : matrix T)
      (ls : list (SVGP_Layer kernel_body custom_mf))
      (kin kout : kernel kernel_body) :
  input_dim kin < input_dim kout ->
  ncols Z <> input_dim kin \/ ncols X <> input_dim kin ->
  inner_layer svd_Vh (X, Z, ls) (kin, kout) = Raise ValueError.
Proof.
  intros Hlt Hbad.
  assert (Hne : (input_dim kin =? input_dim kout) = false)
    by (apply Nat.eqb_neq; lia).
  unfold inner_layer. rewrite Hne, transition_W_up by lia. cbn [rbind].
  destruct (Nat.eq_dec (ncols Z) (input_dim kin)) as [HZ | HZ].
  - destruct (dot_ok Z (padded_identity (T:=T) (input_dim kin)
                                        (input_dim kout - input_dim kin)))
      as (Z' & EZ & _); [now rewrite nrows_padded_identity|].
    rewrite EZ. cbn [rbind]. rewrite dot_raise; [reflexivity|].
    rewrite nrows_padded_identity. destruct Hbad; [contradiction | assumption].
  - rewrite dot_raise; [reflexivity|]. now rewrite nrows_padded_identity.
Qed.

(** Stepping down with a [Z_running] that is not as wide as [X_running]. *)
Lemma inner_layer_down_raise (X Z : matrix T)
      (ls : list (SVGP_Layer kernel_body custom_mf))
      (kin kout : kernel kernel_body) :
  input_dim kout < input_dim kin ->
  ncols (svd_Vh X) = ncols X -> ncols Z <> ncols X ->
  inner_layer svd_Vh (X, Z, ls) (kin, kout) = Raise ValueError.
Proof.
  intros Hlt HV HZ.
  assert (Hne : (input_dim kin =? input_dim kout) = false)
    by (apply Nat.eqb_neq; lia).
  unfold inner_layer. rewrite Hne, transition_W_down by exact Hlt. cbn [rbind].
  rewrite dot_raise; [reflexivity|]. rewrite nrows_transpose. simpl. congruence.
Qed.

(** A dimension-changing pass whose two products are defined. *)
Lemma inner_layer_changing_ok (X Z W : matrix T)
      (ls : list (SVGP_Layer kernel_body custom_mf))
      (kin kout : kernel kernel_body) :
  input_dim kin <> input_dim kout ->
  transition_W svd_Vh X (input_dim kin) (input_dim kout) = Ok W ->
  ncols Z = nrows W -> ncols X = nrows W ->
  exists st, inner_layer svd_Vh (X, Z, ls) (kin, kout) = Ok st.
Proof.
  intros Hne HW HZ HX.
  destruct (dot_ok Z W HZ) as (Z' & EZ & _).
  destruct (dot_ok X W HX) as (X' & EX & _).
  eexists. apply inner_layer_changing; eassumption.
Qed.

(** X6: how a pass through the loop body can fail.  With equal dimensions
    it cannot.  Stepping up, it succeeds when the running matrices are
    [d_in] wide and otherwise ends in [ValueError].  Stepping down (the
    decomposition being as wide as the data), it succeeds when [Z_running]
    is as wide as [X_running] and otherwise ends in [ValueError]; [d_in] is
    not compared with either. *)
Theorem transition_failure_modes
        (X Z : matrix T) (ls : list (SVGP_Layer kernel_body custom_mf))
        (kin kout : kernel kernel_body) :
  (input_dim kin = input_dim kout ->
   exists st, inner_layer svd_Vh (X, Z, ls) (kin, kout) = Ok st)
  /\ (input_dim kin < input_dim kout ->
      (ncols Z = input_dim kin /\ ncols X = input_dim kin ->
       exists st, inner_layer svd_Vh (X, Z, ls) (kin, kout) = Ok st)
      /\ (ncols Z <> input_dim kin \/ ncols X <> input_dim kin ->
          inner_layer svd_Vh (X, Z, ls) (kin, kout) = Raise ValueError))
  /\ (input_dim kout < input_dim kin -> ncols (svd_Vh X) = ncols X ->
      (ncols Z = ncols X ->
       exists st, inner_layer svd_Vh (X, Z, ls) (kin, kout) = Ok st)
      /\ (ncols Z <> ncols X ->
          inner_layer svd_Vh (X, Z, ls) (kin, kout) = Raise ValueError)).
Proof.
  split; [|split].
  - intros Heq. eexists. apply inner_layer_same. exact Heq.
  - intros Hlt. split.
    + intros (HZ & HX).
      apply (inner_layer_changing_ok X Z
               (W:=padded_identity (input_dim kin)
                                   (input_dim kout - input_dim kin)));
        [lia | apply transition_W_up; lia | |];
        now rewrite nrows_padded_identity.
    + apply inner_layer_up_raise. exact Hlt.
  - intros Hlt HV. split.
    + intros HZ.
      apply (inner_layer_changing_ok X Z
               (W:=transpose (take_rows (input_dim kout) (svd_Vh X))));
        [lia | apply transition_W_down; exact Hlt | |];
        rewrite nrows_transpose; simpl; congruence.
    + apply inner_layer_down_raise; assumption.
Qed.

(** X7: a [Z] whose width is not the first kernel's input dimension makes
    the whole constructor end in [ValueError] when the second kernel has a
    larger input dimension; when the second kernel has the same input
    dimension, the first layer is built on that [Z] all the same. *)
Theorem mismatched_width_at_construction
        (X Y Z : matrix T) (k0 k1 : kernel kernel_body)
        (rest : list (kernel kernel_body)) (lik : Likelihood T FVar)
        (num_outputs_arg : option nat) (mean_function_arg : mean_function custom_mf)
        (minibatch_size : option nat) (num_samples_arg : nat)
        (num_data_arg : option nat) :
  ncols Z <> input_dim k0 ->
  (input_dim k0 < input_dim k1 ->
   DGP_init svd_Vh X Y Z (k0 :: k1 :: rest) lik num_outputs_arg
            mean_function_arg minibatch_size num_samples_arg num_data_arg
   = Raise ValueError)
  /\ (input_dim k0 = input_dim k1 ->
      forall m,
        DGP_init svd_Vh X Y Z (k0 :: k1 :: rest) lik num_outputs_arg
                 mean_function_arg minibatch_size num_samples_arg num_data_arg
        = Ok m ->
        exists others,
          layers m = SVGP k0 Z (input_dim k1) Identity :: others).
Proof.
  intros Hbad. split.
  - intros Hlt. unfold DGP_init, DGP_layers.
    rewrite adjacent_cons. cbn [inner_layers].
    rewrite inner_layer_up_raise by (exact Hlt || (left; exact Hbad)).
    reflexivity.
  - intros Heq m Hm. unfold DGP_init in Hm.
    destruct (DGP_layers svd_Vh X Y Z (k0 :: k1 :: rest) num_outputs_arg
                         mean_function_arg) as [ls|e] eqn:E;
      cbn [rbind] in Hm; [|discriminate].
    injection Hm as <-.
    apply DGP_layers_inv in E.
    destruct E as (X' & Z' & inner & k & Hloop & _ & ->).
    rewrite adjacent_cons in Hloop. cbn [inner_layers] in Hloop.
    rewrite inner_layer_same in Hloop by exact Heq. cbn [rbind] in Hloop.
    apply inner_layers_appended in Hloop. destruct Hloop as (new & -> & _).
    eexists. destruct minibatch_size as [[|b]|]; simpl; reflexivity.
Qed.
End StackShapes.

(** ** Zero padding *)

Section PaddingProperties.
Context {T : Type} `{Scalar T}.
Variables kernel_body custom_mf : Type.
Variable svd_Vh : matrix T -> matrix T.

(** A sum whose terms are zero except, at index [j], the term [x]. *)
Lemma fold_single_term (f : nat -> T) (j : nat) (x : T) :
  zero_one_laws T ->
  forall n start a,
    (forall k, start <= k < start + n -> f k = if k =? j then x else s_zero) ->
    fold_left s_add (map f (seq start n)) a
    = if (start <=? j) && (j <? start + n) then s_add a x else a.
Proof.
  intros (Hadd0 & _). induction n as [|n IH]; intros start a Hf.
  - simpl. destruct (start <=? j) eqn:E1; [|reflexivity].
    destruct (j <? start + 0) eqn:E2; [|reflexivity].
    apply Nat.leb_le in E1. apply Nat.ltb_lt in E2. lia.
  - cbn [seq map fold_left]. rewrite IH by (intros k Hk; apply Hf; lia).
    rewrite (Hf start) by lia.
    destruct (Nat.eqb_spec start j);
      destruct (Nat.leb_spec (S start) j);
      destruct (Nat.ltb_spec j (S start + n));
      destruct (Nat.leb_spec start j);
      destruct (Nat.ltb_spec j (start + S n));
      cbn [andb]; try (exfalso; lia); rewrite ?Hadd0; reflexivity.
Qed.

Lemma sum_single_term (f : nat -> T) (n j : nat) (x : T) :
  zero_one_laws T -> j < n ->
  (forall k, k < n -> f k = if k =? j then x else s_zero) ->
  sum_list (map f (seq 0 n)) = x.
Proof.
  intros Hlaws Hj Hf. unfold sum_list.
  rewrite (fold_single_term f j x Hlaws) by (intros k Hk; apply Hf; lia).
  replace (j <? 0 + n) with true by (symmetry; apply Nat.ltb_lt; lia).
  simpl. destruct Hlaws as (_ & H0add & _). apply H0add.
Qed.

Lemma sum_zero_terms (f : nat -> T) (n : nat) :
  zero_one_laws T ->
  (forall k, k < n -> f k = s_zero) ->
  sum_list (map f (seq 0 n)) = s_zero.
Proof.
  intros Hlaws Hf. unfold sum_list.
  rewrite (fold_single_term f n s_zero Hlaws).
  - replace (n <? 0 + n) with false by (symmetry; apply Nat.ltb_ge; lia).
    now rewrite andb_false_r.
  - intros k Hk. rewrite Hf by lia. now destruct (k =? n).
Qed.

(** Multiplying by the zero-padded identity copies the columns and appends
    zero columns. *)
Lemma dot_padded_identity (A A' : matrix T) (n k : nat) :
  zero_one_laws T ->
  dot A (padded_identity n k) = Ok A' ->
  forall i j, i < nrows A -> j < n + k ->
    entry A' i j = if j <? n then entry A i j else s_zero.
Proof.
  intros Hlaws Hdot i j Hi Hj.
  destruct (dot_inv _ _ Hdot) as (HcA & _). rewrite nrows_padded_identity in HcA.
  destruct (dot_ok A (padded_identity n k)) as (A2 & E2 & _ & _ & _ & He);
    [now rewrite nrows_padded_identity|].
  rewrite Hdot in E2. injection E2 as <-.
  rewrite He by (simpl; assumption). rewrite HcA.
  destruct Hlaws as (Hadd0 & H0add & Hmul1 & Hmul0).
  destruct (j <? n) eqn:E.
  - apply Nat.ltb_lt in E.
    apply (sum_single_term _ (j:=j)); [repeat split; assumption | exact E |].
    intros k0 Hk0. rewrite entry_padded_identity by lia.
    replace (j <? n) with true by (symmetry; apply Nat.ltb_lt; exact E).
    unfold delta. destruct (k0 =? j) eqn:Ek.
    + apply Nat.eqb_eq in Ek. subst k0. apply Hmul1.
    + apply Hmul0.
  - apply sum_zero_terms; [repeat split; assumption|].
    intros k0 Hk0. rewrite entry_padded_identity by lia.
    rewrite E. apply Hmul0.
Qed.

End PaddingProperties.

(** ** Forward pass and entry points *)

Section PassProperties.
Context {T : Type} `{Scalar T}.
Context {Layer FVar Rng : Type} `{LayerOps T Layer FVar Rng}.
Context `{MinibatchSampler}.

Lemma combine_firstn_r_length {A B : Type} (l : list A) (l' : list B) :
  combine l (firstn (length l) l') = combine l l'.
Proof.
  revert l'. induction l as [|a l IH]; intros [|b l']; simpl; try reflexivity.
  now rewrite IH.
Qed.

(** X9: noise entries beyond the number of layers are ignored, and each
    returned list has as many entries as the shorter of the layer list and
    [zs]. *)
Theorem propagate_ignores_extra_zs
        (m : DGP_Base) (X : matrix T) (full_cov : bool) (S : nat)
        (zs : list (option (tensor3 T))) (g : Rng) :
  zs <> [] ->
  propagate m X full_cov S (Some zs) g
  = propagate m X full_cov S (Some (firstn (length (layers m)) zs)) g
  /\ exists Fs Fmeans Fvars g',
      propagate m X full_cov S (Some zs) g = ((Fs, Fmeans, Fvars), g')
      /\ length Fs = Nat.min (length (layers m)) (length zs)
      /\ length Fmeans = Nat.min (length (layers m)) (length zs)
      /\ length Fvars = Nat.min (length (layers m)) (length zs).
Proof.
  intros Hne.
  assert (Ez : zs_or_default (Some zs) (length (layers m)) = zs).
  { destruct zs; [contradiction Hne; reflexivity | reflexivity]. }
  split.
  - unfold propagate. rewrite Ez. f_equal.
    destruct (firstn (length (layers m)) zs) as [|z0 zs'] eqn:E.
    + assert (Hl : layers m = []).
      { destruct (layers m) as [|l ls]; [reflexivity|].
        destruct zs; [contradiction Hne; reflexivity | discriminate]. }
      rewrite Hl. reflexivity.
    + cbn [zs_or_default]. rewrite <- E. symmetry. apply combine_firstn_r_length.
  - destruct (propagate_fed m X full_cov S (Some zs) g)
      as (Fs & Fmeans & Fvars & g' & E & Hfed).
    rewrite Ez in Hfed.
    destruct (fed_length Hfed) as (L1 & L2 & L3).
    rewrite length_combine in L1, L2, L3.
    exists Fs, Fmeans, Fvars, g'. auto.
Qed.

(** The loop over two runs of layers: the second run starts from where the
    first one ends. *)
Lemma propagate_loop_app (full_cov : bool) (lz1 lz2 : list (Layer * option (tensor3 T))) :
  forall F acc g,
  exists F1,
    propagate_loop (lz1 ++ lz2) full_cov F acc g
    = propagate_loop lz2 full_cov F1
                     (fst (propagate_loop lz1 full_cov F acc g))
                     (snd (propagate_loop lz1 full_cov F acc g)).
Proof.
  induction lz1 as [|[layer z] rest IH]; intros F [[Fs Fmeans] Fvars] g.
  - exists F. reflexivity.
  - simpl.
    destruct (sample_from_conditional layer F z full_cov g)
      as [[[F' Fmean] Fvar] g1].
    apply IH.
Qed.

(** X10: stacking further layers on top of a model changes nothing below:
    the forward pass of the taller model returns, layer for layer, what the
    pass of the model returned, followed by one entry per added layer. *)
Theorem propagate_prefix
        (m : DGP_Base) (extra : list Layer)
        (X : matrix T) (full_cov : bool) (S : nat) (g : Rng) :
  let taller := Model (num_samples m) (num_data m) (model_X m) (model_Y m)
                      (likelihood m) (layers m ++ extra) in
  exists Fs Fmeans Fvars g1 Fs2 Fmeans2 Fvars2 g2,
    propagate m X full_cov S None g = ((Fs, Fmeans, Fvars), g1)
    /\ propagate taller X full_cov S None g
       = ((Fs ++ Fs2, Fmeans ++ Fmeans2, Fvars ++ Fvars2), g2)
    /\ length Fs2 = length extra
    /\ length Fmeans2 = length extra
    /\ length Fvars2 = length extra.
Proof.
  intros taller. unfold propagate. simpl.
  rewrite !combine_repeat_None. unfold no_noise. rewrite map_app.
  destruct (propagate_loop_app full_cov
              (map (fun layer : Layer => (layer, @None (tensor3 T))) (layers m))
              (map (fun layer : Layer => (layer, @None (tensor3 T))) extra)
              (tile_samples X S) ([], [], []) g) as (F1 & Eapp).
  rewrite Eapp.
  destruct (propagate_loop
              (map (fun layer : Layer => (layer, @None (tensor3 T))) (layers m))
              full_cov (tile_samples X S) ([], [], []) g)
    as [[[Fs Fmeans] Fvars] g1].
  simpl.
  destruct (propagate_loop_fed full_cov
              (map (fun layer : Layer => (layer, @None (tensor3 T))) extra)
              F1 Fs Fmeans Fvars g1)
    as (Fs2 & Fmeans2 & Fvars2 & g2 & E2 & Hfed).
  destruct (fed_length Hfed) as (L1 & L2 & L3).
  rewrite length_map in L1, L2, L3.
  exists Fs, Fmeans, Fvars, g1, Fs2, Fmeans2, Fvars2, g2. auto.
Qed.
End PassProperties.

Section EntryPointProperties.
Context {T : Type} `{Scalar T} `{ScalarLog T}.
Context {Layer FVar Rng : Type} `{LayerOps T Layer FVar Rng}.
Context `{MinibatchSampler}.

(** The value of the objective, for a model with at least one layer. *)
Lemma build_likelihood_value (m : DGP_Base) (t : nat) (g : Rng) :
  layers m <> [] ->
  exists Fmean Fvar g',
    _build_predict m (read (model_X m) t) false (num_samples m) g
    = Ok ((Fmean, Fvar), g')
    /\ _build_likelihood m t g
       = Ok (s_sub (s_mul (L_spec (variational_expectations
                                     (likelihood m) Fmean Fvar
                                     (read (model_Y m) t)))
                          (scale_spec m (read (model_X m) t)))
                   (KL_spec m),
             g').
Proof.
  intros Hlayers.
  destruct (build_predict_ok m (read (model_X m) t) false (num_samples m) g
              Hlayers)
    as (Fs & Fmeans & Fvars & g' & Fmean & Fvar & _ & _ & _ & _ & EP).
  exists Fmean, Fvar, g'. split; [exact EP|].
  unfold _build_likelihood, E_log_p_Y. rewrite EP. simpl.
  rewrite reduce_sum_reduce_mean0. reflexivity.
Qed.

(** X12: with at least one layer no entry point fails, and they agree:
    [predict_f] returns the last mean and variance of what
    [predict_all_layers] returns, [predict_y] the likelihood's
    [predict_mean_and_var] of these, [predict_density] the log-sum-exp of
    the likelihood's [predict_density] of these, all leaving the random
    source where [predict_all_layers] leaves it. *)
Theorem entry_points_agree
        (m : DGP_Base) (Xnew Ynew : matrix T) (S : nat) (g : Rng) :
  layers m <> [] ->
  exists Fs Fmeans Fvars g' Fmean Fvar,
    predict_all_layers m Xnew S g = ((Fs, Fmeans, Fvars), g')
    /\ length Fs = length (layers m)
    /\ last_of Fmeans = Ok Fmean /\ last_of Fvars = Ok Fvar
    /\ predict_f m Xnew S g = Ok ((Fmean, Fvar), g')
    /\ predict_y m Xnew S g
       = Ok (predict_mean_and_var (likelihood m) Fmean Fvar, g')
    /\ predict_density m Xnew Ynew S g
       = Ok (reduce_logsumexp0
               (sub_scalar (lik_predict_density (likelihood m) Fmean Fvar Ynew)
                           (s_log (s_of_nat S))),
             g').
Proof.
  intros Hlayers.
  destruct (build_predict_ok m Xnew false S g Hlayers)
    as (Fs & Fmeans & Fvars & g' & Fmean & Fvar & E & Hfed & EM & EV & EP).
  destruct (fed_length Hfed) as (L1 & _).
  unfold no_noise in L1. rewrite length_map in L1.
  exists Fs, Fmeans, Fvars, g', Fmean, Fvar.
  split; [exact E|]. split; [exact L1|]. split; [exact EM|]. split; [exact EV|].
  split; [exact EP|]. split.
  - unfold predict_y. rewrite EP. reflexivity.
  - unfold predict_density. rewrite EP. reflexivity.
Qed.

(** X13: with minibatching and a sampler that returns as many rows as the
    batch size, the objective of every draw scales the batch estimate by
    [num_data] (the dataset's row count unless given) over the batch size. *)
Theorem minibatch_objective_scale
        (X Y : matrix T) (lik : Likelihood T FVar) (ls : list Layer)
        (b num_samples_arg : nat) (num_data_arg : option nat)
        (t : nat) (g : Rng) :
  ls <> [] ->
  length (minibatch_rows 0%Z (S b) (nrows X) t) = S b ->
  let m := DGP_Base_init X Y lik ls (Some (S b)) num_samples_arg num_data_arg in
  exists Fmean Fvar g',
    _build_predict m (read (model_X m) t) false num_samples_arg g
    = Ok ((Fmean, Fvar), g')
    /\ nrows (read (model_X m) t) = S b
    /\ _build_likelihood m t g
       = Ok (s_sub
               (s_mul (L_spec (variational_expectations
                                 lik Fmean Fvar (read (model_Y m) t)))
                      (s_div (s_of_nat (or_default num_data_arg (nrows X)))
                             (s_of_nat (S b))))
               (sum_list (map KL ls)),
             g').
Proof.
  intros Hls Hlen m.
  destruct (build_likelihood_value m t g Hls) as (Fmean & Fvar & g' & EP & EL).
  exists Fmean, Fvar, g'.
  assert (Hrows : nrows (read (model_X m) t) = S b).
  { simpl. unfold nrows, gather; simpl. rewrite length_map. exact Hlen. }
  split; [exact EP|]. split; [exact Hrows|].
  rewrite EL. unfold scale_spec, KL_spec. rewrite Hrows. reflexivity.
Qed.
End EntryPointProperties.

(** ** Models built by [DGP.__init__] *)

Section ConstructedModel.
Context {T : Type} `{Scalar T}.
Variables kernel_body custom_mf : Type.
Context {FVar Rng : Type}
        `{LayerOps T (SVGP_Layer (T:=T) kernel_body custom_mf) FVar Rng}.
Context `{MinibatchSampler}.
Variable svd_Vh : matrix T -> matrix T.

(** X14: a model that [DGP.__init__] returns has at least one layer, built
    from the whole of [X] whatever the minibatch size is; its [num_data] is
    the one given, or the row count of [X] when missing or zero; and neither
    [predict_f] nor the objective can end in [IndexError]. *)
Theorem constructed_model_is_usable
        (X Y Z : matrix T) (kernels : list (kernel kernel_body))
        (lik : Likelihood T FVar) (num_outputs_arg : option nat)
        (mean_function_arg : mean_function custom_mf)
        (minibatch_size : option nat) (num_samples_arg : nat)
        (num_data_arg : option nat)
        (m : @DGP_Base T (SVGP_Layer kernel_body custom_mf) FVar) :
  DGP_init svd_Vh X Y Z kernels lik num_outputs_arg mean_function_arg
           minibatch_size num_samples_arg num_data_arg
  = Ok m ->
  layers m <> []
  /\ DGP_layers svd_Vh X Y Z kernels num_outputs_arg mean_function_arg
     = Ok (layers m)
  /\ kernels <> []
  /\ num_data m = or_default num_data_arg (nrows X)
  /\ num_samples m = num_samples_arg
  /\ (forall Xnew S g, exists r, predict_f m Xnew S g = Ok r)
  /\ (forall t g, exists r, _build_likelihood m t g = Ok r).
Proof.
  intros Hm. unfold DGP_init in Hm.
  destruct (DGP_layers svd_Vh X Y Z kernels num_outputs_arg mean_function_arg)
    as [ls|e] eqn:E; cbn [rbind] in Hm; [|discriminate].
  injection Hm as <-.
  assert (El : layers (DGP_Base_init X Y lik ls minibatch_size num_samples_arg
                                     num_data_arg) = ls)
    by (destruct minibatch_size as [[|b]|]; reflexivity).
  assert (Hne : ls <> []).
  { apply DGP_layers_inv in E.
    destruct E as (X' & Z' & inner & k & _ & _ & ->).
    destruct inner; discriminate. }
  rewrite El. split; [exact Hne|]. split; [reflexivity|].
  split.
  { intros ->. discriminate E. }
  split; [destruct minibatch_size as [[|b]|]; reflexivity|].
  split; [destruct minibatch_size as [[|b]|]; reflexivity|].
  split.
  - intros Xnew S g.
    destruct (build_predict_ok
                (DGP_Base_init X Y lik ls minibatch_size num_samples_arg
                               num_data_arg) Xnew false S g)
      as (Fs & Fmeans & Fvars & g' & Fmean & Fvar & _ & _ & _ & _ & EP);
      [rewrite El; exact Hne|].
    eexists. exact EP.
  - intros t g.
    destruct (build_likelihood_value
                (DGP_Base_init X Y lik ls minibatch_size num_samples_arg
                               num_data_arg) t g)
      as (Fmean & Fvar & g' & _ & EL); [rewrite El; exact Hne|].
    eexists. exact EL.
Qed.
End ConstructedModel.

(** ** Stepping down *)

Section ProjectionProperties.
Context {T : Type} `{Scalar T}.
Variables kernel_body custom_mf : Type.
Variable svd_Vh : matrix T -> matrix T.

(** X15: a transition that steps down replaces every row of the running
    matrices by its coordinates on the leading right-singular vectors: entry
    [(i, j)] of the new matrix is the inner product of row [i] of the old one
    with row [j] of [Vh]; the new matrices have [min d_out (rows of Vh)]
    columns. *)
Theorem stepping_down_projects
        (X Z X' Z' : matrix T) (ls ls' : list (SVGP_Layer kernel_body custom_mf))
        (kern_in kern_out : kernel kernel_body) :
  input_dim kern_out < input_dim kern_in ->
  ncols (svd_Vh X) = ncols X ->
  inner_layer svd_Vh (X, Z, ls) (kern_in, kern_out) = Ok (X', Z', ls') ->
  ncols Z' = Nat.min (input_dim kern_out) (nrows (svd_Vh X))
  /\ ncols X' = Nat.min (input_dim kern_out) (nrows (svd_Vh X))
  /\ ncols Z = ncols X
  /\ (forall i j, i < nrows Z -> j < ncols Z' ->
        entry Z' i j
        = sum_list (map (fun k => s_mul (entry Z i k) (entry (svd_Vh X) j k))
                        (seq 0 (ncols X))))
  /\ (forall i j, i < nrows X -> j < ncols X' ->
        entry X' i j
        = sum_list (map (fun k => s_mul (entry X i k) (entry (svd_Vh X) j k))
                        (seq 0 (ncols X)))).
Proof.
  intros Hlt HV Hstep.
  destruct (inner_layer_inv _ _ _ _ _ _ Hstep)
    as [(Eq & _) | (_ & W & HW & EZ & EX & _)]; [lia|].
  rewrite transition_W_down in HW by exact Hlt. injection HW as HW.
  destruct (pca_projection (svd_Vh X) (input_dim kern_out))
    as (Hr & Hc & He & _).
  rewrite HW in Hr, Hc, He.
  destruct (dot_inv _ _ EZ) as (HcZ & _ & Zc).
  destruct (dot_inv _ _ EX) as (HcX & _ & Xc).
  destruct (dot_ok Z W HcZ) as (Z2 & EZ2 & _ & _ & _ & Ze).
  destruct (dot_ok X W HcX) as (X2 & EX2 & _ & _ & _ & Xe).
  rewrite EZ in EZ2. rewrite EX in EX2.
  injection EZ2 as <-. injection EX2 as <-.
  split; [congruence|]. split; [congruence|]. split; [congruence|].
  split.
  - intros i j Hi Hj. rewrite Ze by (assumption || lia).
    replace (ncols Z) with (ncols X) by congruence.
    f_equal. apply map_ext_in. intros k Hk. apply in_seq in Hk.
    rewrite He by lia. reflexivity.
  - intros i j Hi Hj. rewrite Xe by (assumption || lia).
    f_equal. apply map_ext_in. intros k Hk. apply in_seq in Hk.
    rewrite He by lia. reflexivity.
Qed.
End ProjectionProperties.

(** ** The further statements at concrete inputs *)

Lemma stack_follows_kernels_witness :
  DGP_layers Toy.toy_svd Toy.X3 Toy.Y2 Toy.Z3 [Toy.k 3; Toy.k 2] None
             (Zero : mean_function unit)
  = Ok [SVGP (Toy.k 3) Toy.Z3 2
             (Linear (Matrix 2 [[1; 0]; [0; 1]; [0; 0]]%Z) false);
        SVGP (Toy.k 2) (Matrix 2 [[1; 2]; [4; 5]]%Z) 1 Zero]
  /\ map (@num_outputs _ _ _)
         [SVGP (Toy.k 3) Toy.Z3 2
               (Linear (custom_mf:=unit)
                       (Matrix 2 [[1; 0]; [0; 1]; [0; 0]]%Z) false);
          SVGP (Toy.k 2) (Matrix 2 [[1; 2]; [4; 5]]%Z) 1 Zero]
     = map (@input_dim _) (tl [Toy.k 3; Toy.k 2]) ++ [or_default None 1].
Proof.
  assert (E : DGP_layers Toy.toy_svd Toy.X3 Toy.Y2 Toy.Z3 [Toy.k 3; Toy.k 2] None
                         (Zero : mean_function unit)
              = Ok [SVGP (Toy.k 3) Toy.Z3 2
                         (Linear (Matrix 2 [[1; 0]; [0; 1]; [0; 0]]%Z) false);
                    SVGP (Toy.k 2) (Matrix 2 [[1; 2]; [4; 5]]%Z) 1 Zero])
    by reflexivity.
  split; [exact E|].
  exact (proj2 (proj2 (stack_follows_kernels _ _ _ _ _ _ _ E))).
Defined.

Lemma stack_mean_functions_witness :
  DGP_layers Toy.toy_svd Toy.X3 Toy.Y2 Toy.Z3 [Toy.k 3; Toy.k 2] None
             (Zero : mean_function unit)
  = Ok [SVGP (Toy.k 3) Toy.Z3 2
             (Linear (Matrix 2 [[1; 0]; [0; 1]; [0; 0]]%Z) false);
        SVGP (Toy.k 2) (Matrix 2 [[1; 2]; [4; 5]]%Z) 1 Zero]
  /\ exists inner final,
      [SVGP (Toy.k 3) Toy.Z3 2
            (Linear (custom_mf:=unit)
                    (Matrix 2 [[1; 0]; [0; 1]; [0; 0]]%Z) false);
       SVGP (Toy.k 2) (Matrix 2 [[1; 2]; [4; 5]]%Z) 1 Zero]
      = inner ++ [final]
      /\ layer_mf final = Zero.
Proof.
  assert (E : DGP_layers Toy.toy_svd Toy.X3 Toy.Y2 Toy.Z3 [Toy.k 3; Toy.k 2] None
                         (Zero : mean_function unit)
              = Ok [SVGP (Toy.k 3) Toy.Z3 2
                         (Linear (Matrix 2 [[1; 0]; [0; 1]; [0; 0]]%Z) false);
                    SVGP (Toy.k 2) (Matrix 2 [[1; 2]; [4; 5]]%Z) 1 Zero])
    by reflexivity.
  split; [exact E|].
  destruct (stack_mean_functions _ _ _ _ _ _ _ E)
    as (inner & final & E1 & E2 & _).
  exists inner, final. split; assumption.
Defined.

Lemma stack_of_equal_dimensions_witness :
  Forall (fun k => input_dim k = input_dim (Toy.k 3)) [Toy.k 3; Toy.k 3]
  /\ DGP_layers Toy.toy_svd Toy.X1 Toy.Y2 Toy.Z1 [Toy.k 3; Toy.k 3; Toy.k 3]
                (Some 4) (Zero : mean_function unit)
     = Ok [SVGP (Toy.k 3) Toy.Z1 3 Identity; SVGP (Toy.k 3) Toy.Z1 3 Identity;
           SVGP (Toy.k 3) Toy.Z1 4 Zero].
Proof.
  assert (Hall : Forall (fun k => input_dim k = input_dim (Toy.k 3))
                        [Toy.k 3; Toy.k 3])
    by (repeat constructor).
  split; [exact Hall|].
  exact (stack_of_equal_dimensions (custom_mf:=unit) Toy.toy_svd Toy.X1 Toy.Y2
           Toy.Z1 (Toy.k 3) (Some 4) Zero Hall).
Defined.

Lemma svd_unused_without_step_down_witness :
  never_steps_down [Toy.k 1; Toy.k 2]
  /\ DGP_layers Toy.toy_svd Toy.X1 Toy.Y2 Toy.Z1 [Toy.k 1; Toy.k 2] None
                (Zero : mean_function unit)
     = DGP_layers (fun _ => Matrix 0 []) Toy.X1 Toy.Y2 Toy.Z1
                  [Toy.k 1; Toy.k 2] None Zero.
Proof.
  assert (Hup : never_steps_down [Toy.k 1; Toy.k 2]) by (simpl; lia).
  split; [exact Hup|].
  exact (svd_unused_without_step_down (custom_mf:=unit) Toy.toy_svd
           (fun _ => Matrix 0 []) Toy.X1 Toy.Y2 Toy.Z1 [Toy.k 1; Toy.k 2]
           None Zero Hup).
Defined.

Lemma toy_svd_shape : svd_shape Toy.toy_svd.
Proof.
  intros M. unfold Toy.toy_svd. rewrite nrows_eye. simpl. split; [reflexivity | lia].
Qed.

Lemma stack_is_well_posed_witness :
  svd_shape Toy.toy_svd
  /\ ncols Toy.X3 = 3 /\ ncols Toy.Z3 = 3
  /\ enough_rows (nrows Toy.X3) [Toy.k 3; Toy.k 2; Toy.k 4]
  /\ exists ls,
      DGP_layers Toy.toy_svd Toy.X3 Toy.Y2 Toy.Z3 [Toy.k 3; Toy.k 2; Toy.k 4]
                 None (Zero : mean_function unit)
      = Ok ls
      /\ Forall (fun l => ncols (layer_Z l) = input_dim (kern l)
                          /\ nrows (layer_Z l) = nrows Toy.Z3) ls.
Proof.
  assert (Hen : enough_rows (nrows Toy.X3) [Toy.k 3; Toy.k 2; Toy.k 4])
    by (cbv [enough_rows Toy.k input_dim Toy.X3 nrows rows length]; lia).
  split; [exact toy_svd_shape|]. split; [reflexivity|]. split; [reflexivity|].
  split; [exact Hen|].
  exact (stack_is_well_posed (custom_mf:=unit) Toy.X3 Toy.Y2 Toy.Z3 (Toy.k 3)
           [Toy.k 2; Toy.k 4] None Zero toy_svd_shape
           (eq_refl : ncols Toy.X3 = input_dim (Toy.k 3))
           (eq_refl : ncols Toy.Z3 = input_dim (Toy.k 3)) Hen).
Defined.

Lemma transition_failure_modes_witness :
  input_dim (Toy.k 2) < input_dim (Toy.k 3)
  /\ ncols Toy.Z1 <> input_dim (Toy.k 2)
  /\ inner_layer (custom_mf:=unit) Toy.toy_svd (Toy.X1, Toy.Z1, [])
                 (Toy.k 2, Toy.k 3)
     = Raise ValueError.
Proof.
  assert (Hlt : input_dim (Toy.k 2) < input_dim (Toy.k 3)) by (simpl; lia).
  assert (Hbad : ncols Toy.Z1 <> input_dim (Toy.k 2)) by discriminate.
  split; [exact Hlt|]. split; [exact Hbad|].
  exact (proj2 (proj1 (proj2 (transition_failure_modes (custom_mf:=unit)
                                Toy.toy_svd Toy.X1 Toy.Z1 []
                                (Toy.k 2) (Toy.k 3))) Hlt)
               (or_introl Hbad)).
Defined.

Lemma mismatched_width_at_construction_witness :
  ncols Toy.Z1 <> input_dim (Toy.k 2)
  /\ input_dim (Toy.k 2) < input_dim (Toy.k 3)
  /\ DGP_init (custom_mf:=unit) Toy.toy_svd Toy.X1 Toy.Y2 Toy.Z1
              [Toy.k 2; Toy.k 3] Toy.toy_likelihood None Zero None 1 None
     = Raise ValueError.
Proof.
  assert (Hlt : input_dim (Toy.k 2) < input_dim (Toy.k 3)) by (simpl; lia).
  assert (Hbad : ncols Toy.Z1 <> input_dim (Toy.k 2)) by discriminate.
  split; [exact Hbad|]. split; [exact Hlt|].
  exact (proj1 (mismatched_width_at_construction (custom_mf:=unit) Toy.toy_svd
                  Toy.X1 Toy.Y2 Toy.Z1 (Toy.k 2) (Toy.k 3) []
                  Toy.toy_likelihood None Zero None 1 None Hbad) Hlt).
Defined.

Lemma Z_zero_one_laws : zero_one_laws Z.
Proof.
  repeat split; intros x; simpl; lia.
Qed.


Lemma propagate_ignores_extra_zs_witness :
  [@None (tensor3 Z); None; None] <> []
  /\ propagate Toy.model2 Toy.X2 false 2 (Some [None; None; None]) 0
     = propagate Toy.model2 Toy.X2 false 2 (Some [None; None]) 0.
Proof.
  assert (Hne : [@None (tensor3 Z); None; None] <> []) by discriminate.
  split; [exact Hne|].
  exact (proj1 (propagate_ignores_extra_zs Toy.model2 Toy.X2 false 2 0 Hne)).
Defined.

Lemma entry_points_agree_witness :
  layers Toy.modelR <> []
  /\ exists r, predict_y Toy.modelR Toy.XR 2 0 = Ok r.
Proof.
  assert (Hne : layers Toy.modelR <> []) by discriminate.
  split; [exact Hne|].
  destruct (entry_points_agree Toy.modelR Toy.XR Toy.XR 2 0 Hne)
    as (Fs & Fmeans & Fvars & g' & Fmean & Fvar & _ & _ & _ & _ & _ & EY & _).
  eexists. exact EY.
Defined.

Lemma minibatch_objective_scale_witness :
  [10%Z; 20%Z] <> []
  /\ length (minibatch_rows 0%Z 1 (nrows Toy.X2) 3) = 1
  /\ nrows (read (model_X (DGP_Base_init Toy.X2 Toy.Y2 Toy.toy_likelihood
                                         [10; 20]%Z (Some 1) 2 None)) 3)
     = 1.
Proof.
  assert (Hne : [10%Z; 20%Z] <> []) by discriminate.
  assert (Hlen : length (minibatch_rows 0%Z 1 (nrows Toy.X2) 3) = 1)
    by reflexivity.
  split; [exact Hne|]. split; [exact Hlen|].
  destruct (minibatch_objective_scale Toy.X2 Toy.Y2 Toy.toy_likelihood 2 None
              3 0 Hne Hlen)
    as (Fmean & Fvar & g' & _ & Hrows & _).
  exact Hrows.
Defined.

Lemma constructed_model_is_usable_witness :
  exists m,
    DGP_init (custom_mf:=unit) Toy.toy_svd Toy.X3 Toy.Y2 Toy.Z3
             [Toy.k 3; Toy.k 2] Toy.toy_likelihood None Zero None 1 (Some 0)
    = Ok m
    /\ num_data m = 3
    /\ exists r, _build_likelihood m 0 0 = Ok r.
Proof.
  eexists. split; [reflexivity|].
  destruct (constructed_model_is_usable (custom_mf:=unit) Toy.toy_svd
              Toy.X3 Toy.Y2 Toy.Z3 [Toy.k 3; Toy.k 2] Toy.toy_likelihood
              None Zero None 1 (Some 0) eq_refl)
    as (_ & _ & _ & Hnd & _ & _ & HL).
  split; [exact Hnd | exact (HL 0 0)].
Defined.

Lemma stepping_down_projects_witness :
  input_dim (Toy.k 2) < input_dim (Toy.k 3)
  /\ ncols (Toy.toy_svd Toy.X3) = ncols Toy.X3
  /\ inner_layer (custom_mf:=unit) Toy.toy_svd (Toy.X3, Toy.Z3, [])
                 (Toy.k 3, Toy.k 2)
     = Ok (Matrix 2 [[3; 0]; [0; 2]; [0; 0]]%Z, Matrix 2 [[1; 2]; [4; 5]]%Z,
           [SVGP (Toy.k 3) Toy.Z3 2
                 (Linear (Matrix 2 [[1; 0]; [0; 1]; [0; 0]]%Z) false)])
  /\ ncols (Matrix 2 [[1; 2]; [4; 5]]%Z) = Nat.min 2 3.
Proof.
  assert (Hlt : input_dim (Toy.k 2) < input_dim (Toy.k 3)) by (simpl; lia).
  assert (E : inner_layer (custom_mf:=unit) Toy.toy_svd (Toy.X3, Toy.Z3, [])
                          (Toy.k 3, Toy.k 2)
              = Ok (Matrix 2 [[3; 0]; [0; 2]; [0; 0]]%Z,
                    Matrix 2 [[1; 2]; [4; 5]]%Z,
                    [SVGP (Toy.k 3) Toy.Z3 2
                          (Linear (Matrix 2 [[1; 0]; [0; 1]; [0; 0]]%Z) false)]))
    by reflexivity.
  split; [exact Hlt|]. split; [reflexivity|]. split; [exact E|].
  exact (proj1 (stepping_down_projects Toy.toy_svd Toy.X3 Toy.Z3 []
                  (Toy.k 3) (Toy.k 2) Hlt eq_refl E)).
Defined.
